(** * A gesture-driven particle system: layout templates, particle buffers,
      gesture classification and the gesture state

    Shallow embedding of [src/app.js] and proofs about it.

    Numbers.  A JavaScript number is modelled as a real number or the token
    [NonFinite], which stands for any of NaN, +Infinity and -Infinity.  The
    operations that can leave the finite numbers on finite operands
    (division and remainder by zero, [Math.acos] outside [-1,1],
    [Math.sqrt] of a negative number) return [NonFinite] there, and every
    operation returns [NonFinite] as soon as one operand is [NonFinite].
    Rounding and overflow of binary64 are not modelled. *)

From Stdlib Require Import Reals Lra Lia ZArith List Zfloor.
From stdpp Require Import base list.
Import ListNotations.

(** ** JavaScript numbers *)

Module JS.

Inductive number : Type :=
  | Fin (r : R)
  | NonFinite.

Definition finite (a : number) : Prop :=
  match a with Fin _ => True | NonFinite => False end.

Definition lift1 (f : R -> R) (a : number) : number :=
  match a with Fin x => Fin (f x) | NonFinite => NonFinite end.

Definition lift2 (f : R -> R -> R) (a b : number) : number :=
  match a, b with
  | Fin x, Fin y => Fin (f x y)
  | _, _ => NonFinite
  end.

Definition add := lift2 Rplus.
Definition sub := lift2 Rminus.
Definition mul := lift2 Rmult.

(** [a / b]: a zero divisor gives Infinity or NaN. *)
Definition div (a b : number) : number :=
  match a, b with
  | Fin x, Fin y => if Req_dec_T y 0 then NonFinite else Fin (x / y)
  | _, _ => NonFinite
  end.

(** Rounding towards zero, the quotient of the [%] operator. *)
Definition trunc (x : R) : Z :=
  if Rle_dec 0 x then Zfloor x else Zceil x.

(** [a % b]: the remainder has the sign of the dividend; [a % 0] is NaN. *)
Definition rem (a b : number) : number :=
  match a, b with
  | Fin x, Fin y =>
      if Req_dec_T y 0 then NonFinite else Fin (x - y * IZR (trunc (x / y)))
  | _, _ => NonFinite
  end.

(** [a < b]: false as soon as one side is NaN.  The token [NonFinite] also
    stands for the two infinities, which JavaScript does compare; the
    comparisons of this file are on the finite coordinates that the hand
    tracker delivers and on loop indices. *)
Definition lt (a b : number) : bool :=
  match a, b with
  | Fin x, Fin y => if Rlt_dec x y then true else false
  | _, _ => false
  end.

Definition min := lift2 Rmin.
Definition max := lift2 Rmax.
Definition floor := lift1 (fun x => IZR (Zfloor x)).
Definition sin := lift1 Rtrigo_def.sin.
Definition cos := lift1 Rtrigo_def.cos.

(** [Math.acos]: NaN outside [-1, 1]. *)
Definition acos (a : number) : number :=
  match a with
  | Fin x =>
      if Rle_dec (-1) x then
        if Rle_dec x 1 then Fin (Ratan.acos x) else NonFinite
      else NonFinite
  | NonFinite => NonFinite
  end.

(** [Math.sqrt]: NaN on negative numbers. *)
Definition sqrt (a : number) : number :=
  match a with
  | Fin x => if Rle_dec 0 x then Fin (R_sqrt.sqrt x) else NonFinite
  | NonFinite => NonFinite
  end.

(** The real cube root: [exp (ln x / 3)] on positive numbers, odd. *)
Definition Rcbrt (x : R) : R :=
  if Rlt_dec 0 x then Rpower x (/ 3)
  else if Rlt_dec x 0 then (- Rpower (- x) (/ 3))%R
  else 0%R.

Definition cbrt := lift1 Rcbrt.

(** [Math.pow] is only used with the exponent 3. *)
Definition pow3 := lift1 (fun x => (x ^ 3)%R).

Definition PI : number := Fin Rtrigo1.PI.

(** A loop index or an element count as a number. *)
Definition of_nat (n : nat) : number := Fin (INR n).

End JS.

Coercion JS.Fin : R >-> JS.number.

Declare Scope js_scope.
Delimit Scope js_scope with js.
Bind Scope js_scope with JS.number.
Notation "a + b" := (JS.add a b) : js_scope.
Notation "a - b" := (JS.sub a b) : js_scope.
Notation "a * b" := (JS.mul a b) : js_scope.
Notation "a / b" := (JS.div a b) : js_scope.
Notation "a 'mod' b" := (JS.rem a b) : js_scope.
Notation "a <? b" := (JS.lt a b) : js_scope.

(** ** Exceptions *)

Inductive Exception : Type :=
  | TypeError.

Inductive result (A : Type) : Type :=
  | Ok (a : A)
  | Throw (e : Exception).
Arguments Ok {A} a.
Arguments Throw {A} e.

Definition rbind {A B} (m : result A) (k : A -> result B) : result B :=
  match m with
  | Ok a => k a
  | Throw e => Throw e
  end.

Notation "'letr' x := m 'in' k" := (rbind m (fun x => k))
  (at level 10, x name, m at level 100, k at level 200).

(** [for (let i = lo; i < lo + n; i++) body] over a state that the body can
    leave through an exception. *)
Fixpoint for_loop {S : Type} (n lo : nat) (body : nat -> S -> result S)
    (s : S) : result S :=
  match n with
  | O => Ok s
  | Datatypes.S n' =>
      letr s' := body lo s in for_loop n' (Datatypes.S lo) body s'
  end.

(** ** Gesture state (lines 27-33) *)

(** The strings that [detectGesture] returns and that [gestureState.detected]
    holds. *)
Inductive Gesture : Type :=
  | open_hand
  | fist
  | point
  | peace
  | unknown
  | none.

Record GestureState : Type := mkGestureState {
  expansion : JS.number;
  rotation : JS.number;
  colorShift : JS.number;
  detected : Gesture
}.

(** The object literal of lines 28-33, written again by the reset handler. *)
Definition initialGestureState : GestureState :=
  {| expansion := 1%R; rotation := 0%R; colorShift := 0%R; detected := none |}.

(** The texts assigned to [statusElement.textContent]. *)
Inductive Status : Type :=
  | Initial
  | HandTrackingActive
  | UsingMouseControls
  | Expanding
  | Contracting
  | Rotating
  | ColorShifting
  | HandDetected
  | NoHandsDetected.

(** ** Gesture classifier (lines 276-297) *)

Module Landmark.
Record t : Type := mk {
  x : JS.number;
  y : JS.number;
  z : JS.number
}.
End Landmark.

(** Reading a property of [landmarks[k]]: an index past the end gives
    [undefined], and a property read on [undefined] throws. *)
Definition prop (f : Landmark.t -> JS.number) (o : option Landmark.t)
    : result JS.number :=
  match o with
  | Some l => Ok (f l)
  | None => Throw TypeError
  end.

(** A value of the array [fingers] in a condition: [undefined] is falsy. *)
Definition truthy (o : option bool) : bool :=
  match o with
  | Some b => b
  | None => false
  end.

Definition detectGesture (landmarks : list Landmark.t) : result Gesture :=
  let fingers : list bool := [] in
  (* Thumb *)
  letr a := prop Landmark.x (landmarks !! 4) in
  letr b := prop Landmark.x (landmarks !! 3) in
  let fingers := fingers ++ [(a <? b)%js] in
  (* Other fingers *)
  letr fingers :=
    for_loop 4 0 (fun i fingers =>
      let tip := landmarks !! (8 + i * 4) in
      let pip := landmarks !! (6 + i * 4) in
      letr a := prop Landmark.y tip in
      letr b := prop Landmark.y pip in
      Ok (fingers ++ [(a <? b)%js])) fingers in
  let extendedCount := length (List.filter (fun f => f) fingers) in
  if Nat.eqb extendedCount 5 then Ok open_hand
  else if Nat.eqb extendedCount 0 then Ok fist
  else if Nat.eqb extendedCount 1 && truthy (fingers !! 1) then Ok point
  else if Nat.eqb extendedCount 2 && truthy (fingers !! 1)
          && truthy (fingers !! 2) then Ok peace
  else Ok unknown.

(** ** Hand results callback (lines 300-329) and reset handler (348-352) *)

(** [results.multiHandLandmarks] is absent or an array with one landmark
    array per detected hand. *)
Record Results : Type := mkResults {
  multiHandLandmarks : option (list (list Landmark.t))
}.

(** The globals that the callback and the reset handler write. *)
Record Globals : Type := mkGlobals {
  gestureState : GestureState;
  statusText : Status
}.

Definition set_status (s : Status) (g : Globals) : Globals :=
  {| gestureState := gestureState g; statusText := s |}.

Definition set_detected (d : Gesture) (g : Globals) : Globals :=
  {| gestureState :=
       {| expansion := expansion (gestureState g);
          rotation := rotation (gestureState g);
          colorShift := colorShift (gestureState g);
          detected := d |};
     statusText := statusText g |}.

Definition set_expansion (e : JS.number) (g : Globals) : Globals :=
  {| gestureState :=
       {| expansion := e;
          rotation := rotation (gestureState g);
          colorShift := colorShift (gestureState g);
          detected := detected (gestureState g) |};
     statusText := statusText g |}.

Definition set_rotation (r : JS.number) (g : Globals) : Globals :=
  {| gestureState :=
       {| expansion := expansion (gestureState g);
          rotation := r;
          colorShift := colorShift (gestureState g);
          detected := detected (gestureState g) |};
     statusText := statusText g |}.

Definition set_colorShift (c : JS.number) (g : Globals) : Globals :=
  {| gestureState :=
       {| expansion := expansion (gestureState g);
          rotation := rotation (gestureState g);
          colorShift := c;
          detected := detected (gestureState g) |};
     statusText := statusText g |}.

(** How a handler ends: it returns, or an exception leaves it. *)
Inductive Completion : Type :=
  | Returned
  | Thrown (e : Exception).

(** The [switch] of lines 306-325. *)
Definition gestureSwitch (gesture : Gesture) (g : Globals) : Globals :=
  match gesture with
  | open_hand =>
      let g := set_expansion
                 (JS.min (expansion (gestureState g) + 0.02%R)%js 2.0%R) g in
      set_status Expanding g
  | fist =>
      let g := set_expansion
                 (JS.max (expansion (gestureState g) - 0.02%R)%js 0.3%R) g in
      set_status Contracting g
  | point =>
      let g := set_rotation (rotation (gestureState g) + 1%R)%js g in
      set_status Rotating g
  | peace =>
      let g := set_colorShift
                 ((colorShift (gestureState g) + 0.01%R) mod 1%R)%js g in
      set_status ColorShifting g
  | _ => set_status HandDetected g
  end.

Definition onHandResults (results : Results) (g : Globals)
    : Completion * Globals :=
  match multiHandLandmarks results with
  | Some (landmarks :: _) =>
      match detectGesture landmarks with
      | Throw e => (Thrown e, g)
      | Ok gesture =>
          let g := set_detected gesture g in
          (Returned, gestureSwitch gesture g)
      end
  | _ => (Returned, set_status NoHandsDetected g)
  end.

(** The part of the reset handler that writes the globals above; the camera
    and the orbit controls it also resets are not modelled. *)
Definition resetClick (g : Globals) : Globals :=
  {| gestureState := initialGestureState; statusText := statusText g |}.

(** The two writers of the gesture state, as events of the event loop. *)
Inductive Event : Type :=
  | HandResults (results : Results)
  | ResetClick.

Definition step (g : Globals) (ev : Event) : Globals :=
  match ev with
  | HandResults results => snd (onHandResults results g)
  | ResetClick => resetClick g
  end.

Definition run (evs : list Event) (g : Globals) : Globals :=
  fold_left step evs g.

Definition initialGlobals : Globals :=
  {| gestureState := initialGestureState; statusText := Initial |}.

(** ** Layout templates (lines 41-150) *)

Module Vector3.
Record t : Type := mk {
  x : JS.number;
  y : JS.number;
  z : JS.number
}.
Definition finite (v : t) : Prop :=
  JS.finite (x v) /\ JS.finite (y v) /\ JS.finite (z v).
End Vector3.

(** The random source: the sequence of the values that the coming calls of
    [Math.random()] in this file return; the values that the THREE library
    draws for itself in between (the identifiers of the objects it
    constructs) are not part of the sequence.  A computation that may call
    [Math.random()] takes the source and returns what is left of it. *)
Definition RandomSource : Type := nat -> R.

Definition Rand (A : Type) : Type := RandomSource -> A * RandomSource.

Definition ret {A} (a : A) : Rand A := fun s => (a, s).

Definition bind {A B} (m : Rand A) (k : A -> Rand B) : Rand B :=
  fun s => let (a, s') := m s in k a s'.

Definition Math_random : Rand JS.number :=
  fun s => (JS.Fin (s 0), fun k => s (S k)).

Notation "'letm' x := m 'in' k" := (bind m (fun x => k))
  (at level 10, x name, m at level 100, k at level 200).

Inductive TemplateName : Type :=
  | sphere
  | heart
  | flower
  | saturn
  | fireworks
  | spiral
  | cube
  | wave.

Module templates.
Local Open Scope R_scope.
Local Open Scope js_scope.

Definition sphere (i total : JS.number) : Rand Vector3.t :=
  let phi := JS.acos (-1 + (2 * i) / total) in
  let theta := JS.sqrt (total * JS.PI) * phi in
  let radius : JS.number := 5 in
  ret (Vector3.mk
         (radius * JS.cos theta * JS.sin phi)
         (radius * JS.sin theta * JS.sin phi)
         (radius * JS.cos phi)).

Definition heart (i total : JS.number) : Rand Vector3.t :=
  let t := (i / total) * JS.PI * 2 in
  let u := (i mod 100) / 100 in
  let x := 5 * (16 * JS.pow3 (JS.sin t)) in
  let y := 5 * (13 * JS.cos t - 5 * JS.cos (2 * t) - 2 * JS.cos (3 * t)
                - JS.cos (4 * t)) in
  let z := (u - 0.5) * 3 in
  ret (Vector3.mk (x * 0.3) (y * 0.3) z).

Definition flower (i total : JS.number) : Rand Vector3.t :=
  let angle := (i / total) * JS.PI * 2 in
  let layer := JS.floor (i / (total / 5)) in
  let radius := 3 + JS.sin (angle * 5) * 2 in
  let height := (layer - 2.5) * 1.5 in
  ret (Vector3.mk (radius * JS.cos angle) height (radius * JS.sin angle)).

Definition saturn (i total : JS.number) : Rand Vector3.t :=
  let ringParticles := total * 0.6 in
  if i <? ringParticles then
    let angle := (i / ringParticles) * JS.PI * 2 in
    letm r1 := Math_random in
    let radius := 5 + r1 * 2 in
    letm r2 := Math_random in
    ret (Vector3.mk
           (radius * JS.cos angle)
           ((r2 - 0.5) * 0.5)
           (radius * JS.sin angle))
  else
    let phi :=
      JS.acos (-1 + (2 * (i - ringParticles)) / (total - ringParticles)) in
    let theta := JS.sqrt ((total - ringParticles) * JS.PI) * phi in
    let radius : JS.number := 3 in
    ret (Vector3.mk
           (radius * JS.cos theta * JS.sin phi)
           (radius * JS.sin theta * JS.sin phi)
           (radius * JS.cos phi)).

Definition fireworks (i total : JS.number) : Rand Vector3.t :=
  let burstCount : JS.number := 8 in
  let particlesPerBurst := total / burstCount in
  let burstIndex := JS.floor (i / particlesPerBurst) in
  let particleInBurst := i mod particlesPerBurst in
  let burstAngle := (burstIndex / burstCount) * JS.PI * 2 in
  let burstRadius : JS.number := 3 in
  letm r := Math_random in
  let burstCenter :=
    Vector3.mk
      (burstRadius * JS.cos burstAngle)
      ((r - 0.5) * 4)
      (burstRadius * JS.sin burstAngle) in
  let phi := JS.acos (-1 + (2 * particleInBurst) / particlesPerBurst) in
  let theta := JS.sqrt (particlesPerBurst * JS.PI) * phi in
  let explosionRadius : JS.number := 1.5 in
  ret (Vector3.mk
         (Vector3.x burstCenter + explosionRadius * JS.cos theta * JS.sin phi)
         (Vector3.y burstCenter + explosionRadius * JS.sin theta * JS.sin phi)
         (Vector3.z burstCenter + explosionRadius * JS.cos phi)).

Definition spiral (i total : JS.number) : Rand Vector3.t :=
  let t := (i / total) * JS.PI * 8 in
  let radius := t * 0.5 in
  let height := (i / total - 0.5) * 10 in
  ret (Vector3.mk (radius * JS.cos t) height (radius * JS.sin t)).

Definition cube (i total : JS.number) : Rand Vector3.t :=
  let side := JS.cbrt total in
  let x := (i mod side) - side / 2 in
  let y := (JS.floor (i / side) mod side) - side / 2 in
  let z := JS.floor (i / (side * side)) - side / 2 in
  let spacing := 10 / side in
  ret (Vector3.mk (x * spacing) (y * spacing) (z * spacing)).

Definition wave (i total : JS.number) : Rand Vector3.t :=
  let gridSize := JS.sqrt total in
  let x := (i mod gridSize) - gridSize / 2 in
  let z := JS.floor (i / gridSize) - gridSize / 2 in
  let spacing := 10 / gridSize in
  let y := JS.sin (x * 0.5) * JS.cos (z * 0.5) * 2 in
  ret (Vector3.mk (x * spacing) y (z * spacing)).

End templates.

(** [templates[currentTemplate]] for the eight keys of the object. *)
Definition templateFunc (name : TemplateName)
    : JS.number -> JS.number -> Rand Vector3.t :=
  match name with
  | sphere => templates.sphere
  | heart => templates.heart
  | flower => templates.flower
  | saturn => templates.saturn
  | fireworks => templates.fireworks
  | spiral => templates.spiral
  | cube => templates.cube
  | wave => templates.wave
  end.

(** ** Particle buffers (lines 21-25, 152-227) *)

Module Color.
Record t : Type := mk {
  r : JS.number;
  g : JS.number;
  b : JS.number
}.
End Color.

(** A [Float32Array] is a list of numbers of fixed length.  A write past the
    end is dropped, as stdpp's list insertion does; a read past the end gives
    [undefined], which arithmetic turns into NaN.  Rounding to binary32 is
    not modelled. *)
Definition new_Float32Array (n : nat) : list JS.number :=
  replicate n (JS.Fin 0).

Definition to_number (o : option JS.number) : JS.number :=
  match o with
  | Some v => v
  | None => JS.NonFinite
  end.

(** The [THREE.Points] object [particles] with the three attribute arrays of
    its geometry and the two fields of its transform that the code writes. *)
Record Points : Type := mkPoints {
  positions : list JS.number;
  colors : list JS.number;
  sizes : list JS.number;
  scale : JS.number;
  rotation_y : JS.number
}.

(** [for (let i = lo; i < lo + n; i++) body], without and with the random
    source. *)
Fixpoint for_each {S : Type} (n lo : nat) (body : nat -> S -> S) (s : S)
    : S :=
  match n with
  | O => s
  | Datatypes.S n' => for_each n' (Datatypes.S lo) body (body lo s)
  end.

Fixpoint for_rand {S : Type} (n lo : nat) (body : nat -> S -> Rand S)
    (s : S) : Rand S :=
  match n with
  | O => ret s
  | Datatypes.S n' =>
      letm s' := body lo s in for_rand n' (Datatypes.S lo) body s'
  end.

Section Particles.

(** The two methods of [THREE.Color] that the code calls; the library is
    not part of the repository.  [offsetHSL c h s l] is
    [c.clone().offsetHSL(h, s, l)] and [setHSL h s l] is
    [new THREE.Color().setHSL(h, s, l)]. *)
Variable offsetHSL : Color.t -> JS.number -> JS.number -> JS.number -> Color.t.
Variable setHSL : JS.number -> JS.number -> JS.number -> Color.t.

(** One iteration of the loop of lines 167-180. *)
Definition createParticles_body (currentTemplate : TemplateName)
    (particleCount : nat) (baseColor : Color.t) (i : nat) (p : Points)
    : Rand Points :=
  letm pos :=
    templateFunc currentTemplate (JS.of_nat i) (JS.of_nat particleCount) in
  let positions := <[i * 3 := Vector3.x pos]> (positions p) in
  let positions := <[i * 3 + 1 := Vector3.y pos]> positions in
  let positions := <[i * 3 + 2 := Vector3.z pos]> positions in
  let color :=
    offsetHSL baseColor
      ((JS.of_nat i / JS.of_nat particleCount) * 0.1%R)%js 0%R 0%R in
  let colors := <[i * 3 := Color.r color]> (colors p) in
  let colors := <[i * 3 + 1 := Color.g color]> colors in
  let colors := <[i * 3 + 2 := Color.b color]> colors in
  letm rnd := Math_random in
  let sizes := <[i := (rnd * 2%R + 1%R)%js]> (sizes p) in
  ret {| positions := positions; colors := colors; sizes := sizes;
         scale := scale p; rotation_y := rotation_y p |}.

(** [createParticles()]: the new value of the global [particles].  The old
    object is removed from the scene and disposed of; nothing of it goes
    into the new one.  The calls of [Math.random()] are those of the loop
    of lines 167-180; the constructors of THREE that run before and after
    the loop draw values of their own, which the source does not hold. *)
Definition createParticles (currentTemplate : TemplateName)
    (particleCount : nat) (baseColor : Color.t) : Rand Points :=
  let fresh :=
    {| positions := new_Float32Array (particleCount * 3);
       colors := new_Float32Array (particleCount * 3);
       sizes := new_Float32Array particleCount;
       scale := 1%R; rotation_y := 0%R |} in
  for_rand particleCount 0
    (createParticles_body currentTemplate particleCount baseColor) fresh.

(** One iteration of the loop of lines 209-223.  [now i] is the value, in
    milliseconds, that the call of [Date.now()] in iteration [i] returns. *)
Definition updateParticles_body (gestureState : GestureState)
    (particleCount : nat) (now : nat -> R) (i : nat) (p : Points) : Points :=
  let color :=
    setHSL
      ((colorShift gestureState
        + (JS.of_nat i / JS.of_nat particleCount) * 0.1%R) mod 1%R)%js
      0.8%R 0.5%R in
  let colors := <[i * 3 := Color.r color]> (colors p) in
  let colors := <[i * 3 + 1 := Color.g color]> colors in
  let colors := <[i * 3 + 2 := Color.b color]> colors in
  (* Add subtle animation *)
  let time := (JS.Fin (now i) * 0.001%R)%js in
  let positions :=
    <[i * 3 + 1 :=
        (to_number (positions p !! (i * 3 + 1)%nat)
         + JS.sin (time + JS.of_nat i * 0.1%R) * 0.002%R)%js]>
      (positions p) in
  {| positions := positions; colors := colors; sizes := sizes p;
     scale := scale p; rotation_y := rotation_y p |}.

(** [updateParticles()] on the global [particles], which is [undefined]
    until [createParticles] has run. *)
Definition updateParticles (gestureState : GestureState)
    (particleCount : nat) (now : nat -> R) (particles : option Points)
    : option Points :=
  match particles with
  | None => None
  | Some p =>
      let p :=
        {| positions := positions p; colors := colors p; sizes := sizes p;
           scale := expansion gestureState;
           rotation_y :=
             (rotation_y p + rotation gestureState * 0.01%R)%js |} in
      Some (for_each particleCount 0
              (updateParticles_body gestureState particleCount now) p)
  end.

End Particles.

(** ** The classifier as the specification words it *)

(** [landmarks[k]] of a sample that has the index [k]. *)
Definition landmark_at (landmarks : list Landmark.t) (k : nat) : Landmark.t :=
  nth k landmarks (Landmark.mk JS.NonFinite JS.NonFinite JS.NonFinite).

Definition thumb_extended (landmarks : list Landmark.t) : bool :=
  (Landmark.x (landmark_at landmarks 4)
   <? Landmark.x (landmark_at landmarks 3))%js.

(** Finger [i] of index (0), middle (1), ring (2) and pinky (3). *)
Definition finger_extended (landmarks : list Landmark.t) (i : nat) : bool :=
  (Landmark.y (landmark_at landmarks (8 + 4 * i))
   <? Landmark.y (landmark_at landmarks (6 + 4 * i)))%js.

(** The label of each of the 32 vectors of extended fingers. *)
Definition classify_spec (thumb index middle ring pinky : bool) : Gesture :=
  match thumb, index, middle, ring, pinky with
  | true, true, true, true, true => open_hand
  | false, false, false, false, false => fist
  | false, true, false, false, false => point
  | false, true, true, false, false => peace
  | _, _, _, _, _ => unknown
  end.

(** ** Sample inputs *)

Definition origin : Landmark.t := Landmark.mk 0%R 0%R 0%R.

(** 21 landmarks at one point: no finger is extended. *)
Definition fist_sample : list Landmark.t := replicate 21 origin.

Definition one_hand (landmarks : list Landmark.t) : Results :=
  {| multiHandLandmarks := Some [landmarks] |}.

Definition no_hands : Results := {| multiHandLandmarks := None |}.

(** A sample of 21 landmarks with a chosen vector of extended fingers: the
    joints sit at 0.5 and a tip at 0 when its finger is extended, at 1 when
    it is not. *)
Definition joint : Landmark.t := Landmark.mk 0.5%R 0.5%R 0%R.

Definition tip_coordinate (is_extended : bool) : JS.number :=
  if is_extended then JS.Fin 0 else JS.Fin 1.

Definition thumb_tip (is_extended : bool) : Landmark.t :=
  Landmark.mk (tip_coordinate is_extended) 0.5%R 0%R.

Definition finger_tip (is_extended : bool) : Landmark.t :=
  Landmark.mk 0.5%R (tip_coordinate is_extended) 0%R.

Definition sample_of (thumb index middle ring pinky : bool)
    : list Landmark.t :=
  [joint; joint; joint; joint; thumb_tip thumb;
   joint; joint; joint; finger_tip index;
   joint; joint; joint; finger_tip middle;
   joint; joint; joint; finger_tip ring;
   joint; joint; joint; finger_tip pinky].

(** ** The range of the gesture state *)

Definition gesture_state_in_range (s : GestureState) : Prop :=
  exists e c : R,
    expansion s = JS.Fin e /\ (0.3 <= e <= 2.0)%R /\
    colorShift s = JS.Fin c /\ (0 <= c < 1)%R.

(** ** The loop invariant of [createParticles] *)

(** After the iterations below [i] the position array has its length of
    allocation and finite numbers in the slots of the particles below
    [i]. *)
Definition positions_filled (particleCount i : nat) (p : Points) : Prop :=
  length (positions p) = particleCount * 3
  /\ forall k, k < i * 3 -> exists r : R, positions p !! k = Some (JS.Fin r).

(** ** Flower and cube as the specification words them *)

(** Five evenly spaced layer heights from -3.75 to +3.75. *)
Definition flower_height_spec (layer : Z) : R :=
  (-3.75 + IZR layer * (7.5 / 4))%R.

(** A voxel grid of the integer side [ceil (cbrt count)], the index
    decomposed by integer modulo and division, centered and spaced as the
    code does. *)
Definition cube_side_spec (count : nat) : Z :=
  Zceil (JS.Rcbrt (INR count)).

Definition cube_spec (i count : nat) : Vector3.t :=
  let side := cube_side_spec count in
  let x := (Z.of_nat i mod side)%Z in
  let y := ((Z.of_nat i / side) mod side)%Z in
  let z := (Z.of_nat i / (side * side))%Z in
  let spacing := (10 / IZR side)%R in
  Vector3.mk
    (JS.Fin ((IZR x - IZR side / 2) * spacing))
    (JS.Fin ((IZR y - IZR side / 2) * spacing))
    (JS.Fin ((IZR z - IZR side / 2) * spacing)).

(** One particle at the origin, black, of size 1, and a [setHSL] that
    returns the grey of its hue, for the examples. *)
Definition one_particle : Points :=
  {| positions := [JS.Fin 0; JS.Fin 0; JS.Fin 0];
     colors := [JS.Fin 0; JS.Fin 0; JS.Fin 0];
     sizes := [JS.Fin 1];
     scale := 1%R; rotation_y := 0%R |}.

Definition grey_of_hue (h s l : JS.number) : Color.t := Color.mk h h h.

(** Two particles away from the origin, and a gesture state away from the
    initial one: expanded, turning, with a colour shift near the wrap. *)
Definition two_particles : Points :=
  {| positions :=
       [JS.Fin 1; JS.Fin 2; JS.Fin 3; JS.Fin (-1); JS.Fin (-2); JS.Fin (-3)];
     colors :=
       [JS.Fin 0; JS.Fin 0; JS.Fin 1; JS.Fin 1; JS.Fin 0; JS.Fin 0];
     sizes := [JS.Fin 1; JS.Fin 2.5];
     scale := 1%R; rotation_y := 0%R |}.

Definition turning_state : GestureState :=
  {| expansion := 1.5%R; rotation := 2%R; colorShift := 0.97%R;
     detected := point |}.

(** A clock that ticks during the loop: the call of [Date.now()] in
    iteration [i] returns the millisecond [i]. *)
Definition ticking_clock (i : nat) : R := INR i.

(** ** What one frame writes *)

(** The colour that iteration [i] of [updateParticles] computes. *)
Definition frame_color
    (setHSL : JS.number -> JS.number -> JS.number -> Color.t)
    (gs : GestureState) (particleCount i : nat) : Color.t :=
  setHSL
    ((colorShift gs + (JS.of_nat i / JS.of_nat particleCount) * 0.1%R)
     mod 1%R)%js 0.8%R 0.5%R.

(** The number that iteration [i] adds to the y slot of particle [i], for
    the clock readings [now] in milliseconds. *)
Definition frame_drift (now : nat -> R) (i : nat) : JS.number :=
  JS.Fin (sin (now i * 0.001 + INR i * 0.1) * 0.002).

(** What the loop of [updateParticles] has written for particle [j] when it
    started from [p] and is at [st], and what it keeps of [p]. *)
Definition particle_written
    (setHSL : JS.number -> JS.number -> JS.number -> Color.t)
    (gs : GestureState) (particleCount : nat) (now : nat -> R)
    (p st : Points) (j : nat) : Prop :=
  colors st !! (j * 3) =
    Some (Color.r (frame_color setHSL gs particleCount j))
  /\ colors st !! (j * 3 + 1) =
       Some (Color.g (frame_color setHSL gs particleCount j))
  /\ colors st !! (j * 3 + 2) =
       Some (Color.b (frame_color setHSL gs particleCount j))
  /\ positions st !! (j * 3 + 1) =
       Some (to_number (positions p !! (j * 3 + 1)%nat) + frame_drift now j)%js.

Definition frame_kept (p st : Points) : Prop :=
  sizes st = sizes p
  /\ length (positions st) = length (positions p)
  /\ length (colors st) = length (colors p)
  /\ forall m,
       positions st !! (m * 3) = positions p !! (m * 3)
       /\ positions st !! (m * 3 + 2) = positions p !! (m * 3 + 2).

(** ** The values of [Math.random()] *)

(** [Math.random()] returns a number of [0, 1). *)
Definition unit_source (src : RandomSource) : Prop :=
  forall k, (0 <= src k < 1)%R.

(** ** The animation loop (lines 354-360) *)

(** [n] runs of [animate] while the gesture state does not change: each calls
    [updateParticles()]; the orbit controls and the renderer it also calls
    are not modelled.  [clock k] gives the clock readings of the run number
    [k]. *)
Fixpoint animate_frames
    (setHSL : JS.number -> JS.number -> JS.number -> Color.t)
    (gs : GestureState) (particleCount : nat) (clock : nat -> nat -> R)
    (n : nat) (particles : option Points) : option Points :=
  match n with
  | O => particles
  | Datatypes.S n' =>
      updateParticles setHSL gs particleCount (clock n')
        (animate_frames setHSL gs particleCount clock n' particles)
  end.

(** ** The page: globals, handlers and events (lines 21-39, 229-273,
       331-372) *)

(** The module-level variables that the handlers read and write, and the
    random source. *)
Record App : Type := mkApp {
  globals : Globals;
  particleCount : nat;
  currentTemplate : TemplateName;
  baseColor : Color.t;
  particles : option Points;
  randomSource : RandomSource
}.

(** The state when the module has run its declarations (lines 21-39):
    10000 particles, the sphere, [new THREE.Color(0x00ffff)], no particles
    object yet. *)
Definition declared (src : RandomSource) : App :=
  {| globals := initialGlobals;
     particleCount := 10000;
     currentTemplate := sphere;
     baseColor := Color.mk 0%R 1%R 1%R;
     particles := None;
     randomSource := src |}.

Definition with_globals (g : Globals) (app : App) : App :=
  {| globals := g;
     particleCount := particleCount app;
     currentTemplate := currentTemplate app;
     baseColor := baseColor app;
     particles := particles app;
     randomSource := randomSource app |}.

Section Page.

Variable offsetHSL : Color.t -> JS.number -> JS.number -> JS.number -> Color.t.
Variable setHSL : JS.number -> JS.number -> JS.number -> Color.t.

(** [createParticles()] on the globals. *)
Definition createParticles_global (app : App) : App :=
  let (p, src) :=
    createParticles offsetHSL (currentTemplate app) (particleCount app)
      (baseColor app) (randomSource app) in
  {| globals := globals app;
     particleCount := particleCount app;
     currentTemplate := currentTemplate app;
     baseColor := baseColor app;
     particles := Some p;
     randomSource := src |}.

(** The change handler of the template select (lines 332-335); the select
    offers the eight template names. *)
Definition templateSelectChange (value : TemplateName) (app : App) : App :=
  createParticles_global
    {| globals := globals app;
       particleCount := particleCount app;
       currentTemplate := value;
       baseColor := baseColor app;
       particles := particles app;
       randomSource := randomSource app |}.

(** The input handler of the particle count slider (lines 337-341), for the
    natural number that [parseInt] reads from the slider value; the text of
    the count label that it also sets is not modelled. *)
Definition particleCountInput (value : nat) (app : App) : App :=
  createParticles_global
    {| globals := globals app;
       particleCount := value;
       currentTemplate := currentTemplate app;
       baseColor := baseColor app;
       particles := particles app;
       randomSource := randomSource app |}.

(** The input handler of the colour picker (lines 343-346), for the colour
    that [new THREE.Color(e.target.value)] builds. *)
Definition colorPickerInput (value : Color.t) (app : App) : App :=
  createParticles_global
    {| globals := globals app;
       particleCount := particleCount app;
       currentTemplate := currentTemplate app;
       baseColor := value;
       particles := particles app;
       randomSource := randomSource app |}.

(** One run of [animate] (lines 355-360): [updateParticles()]; the orbit
    controls and the renderer are not modelled. *)
Definition animate (now : nat -> R) (app : App) : App :=
  {| globals := globals app;
     particleCount := particleCount app;
     currentTemplate := currentTemplate app;
     baseColor := baseColor app;
     particles :=
       updateParticles setHSL (gestureState (globals app))
         (particleCount app) now (particles app);
     randomSource := randomSource app |}.

(** What reaches the page after its start. *)
Inductive PageEvent : Type :=
  | HandsResults (results : Results)
  | ResetButtonClick
  | TemplateSelectChange (value : TemplateName)
  | ParticleCountInput (value : nat)
  | ColorPickerInput (value : Color.t)
  | AnimationFrame (now : nat -> R)
  | HandTrackingStarted
  | HandTrackingFailed.

Definition page_step (app : App) (ev : PageEvent) : App :=
  match ev with
  | HandsResults results =>
      with_globals (snd (onHandResults results (globals app))) app
  | ResetButtonClick => with_globals (resetClick (globals app)) app
  | TemplateSelectChange value => templateSelectChange value app
  | ParticleCountInput value => particleCountInput value app
  | ColorPickerInput value => colorPickerInput value app
  | AnimationFrame now => animate now app
  | HandTrackingStarted =>
      with_globals (set_status HandTrackingActive (globals app)) app
  | HandTrackingFailed =>
      with_globals (set_status UsingMouseControls (globals app)) app
  end.

(** The start of the page (lines 369-372): [createParticles()], then the
    first run of [animate]; [setupHandTracking()] ends later, as one of the
    last two events. *)
Definition started (now : nat -> R) (src : RandomSource) : App :=
  animate now (createParticles_global (declared src)).

Definition page_run (evs : list PageEvent) (app : App) : App :=
  fold_left page_step evs app.

End Page.

(** The buffers of the particles object have the lengths that the global
    count asks for. *)
Definition buffers_match_count (app : App) : Prop :=
  exists p : Points,
    particles app = Some p
    /\ length (positions p) = particleCount app * 3
    /\ length (colors p) = particleCount app * 3
    /\ length (sizes p) = particleCount app.

(** The scale that the renderer applies is a number of [0.3, 2.0]. *)
Definition scale_in_range (app : App) : Prop :=
  exists p : Points, exists s : R,
    particles app = Some p /\ scale p = JS.Fin s /\ (0.3 <= s <= 2.0)%R.

(** What every event of the page keeps. *)
Definition page_ok (app : App) : Prop :=
  gesture_state_in_range (gestureState (globals app))
  /\ buffers_match_count app /\ scale_in_range app.

(** The fractional part of a real number. *)
Definition frac (x : R) : R := (x - IZR (Zfloor x))%R.

(** * Properties *)

(** ** Numbers *)

Lemma trunc_nonneg (x : R) : (0 <= x)%R -> JS.trunc x = Zfloor x.
Proof.
  intros H. unfold JS.trunc. destruct (Rle_dec 0 x); [reflexivity | lra].
Qed.

(** [x % 1] of a non-negative number is its fractional part. *)
Lemma rem_1_range (x : R) :
  (0 <= x)%R ->
  exists c : R, JS.rem (JS.Fin x) (JS.Fin 1) = JS.Fin c /\ (0 <= c < 1)%R.
Proof.
  intros Hx. unfold JS.rem.
  destruct (Req_dec_T 1 0) as [H | _]; [lra |].
  eexists; split; [reflexivity |].
  replace (x / 1)%R with x by field.
  rewrite trunc_nonneg by assumption.
  pose proof (Zfloor_bound x). lra.
Qed.

(** ** Gesture classifier *)

Lemma prop_lookup (f : Landmark.t -> JS.number) (landmarks : list Landmark.t)
    (k : nat) :
  k < length landmarks ->
  prop f (landmarks !! k) = Ok (f (landmark_at landmarks k)).
Proof.
  intros Hk. unfold landmark_at.
  destruct (lookup_lt_is_Some_2 landmarks k Hk) as [l Hl].
  rewrite Hl. simpl. f_equal. f_equal.
  symmetry. exact (nth_lookup_Some _ _ _ _ Hl).
Qed.

Lemma prop_lookup_ge (f : Landmark.t -> JS.number)
    (landmarks : list Landmark.t) (k : nat) :
  length landmarks <= k -> prop f (landmarks !! k) = Throw TypeError.
Proof. intros Hk. rewrite lookup_ge_None_2 by assumption. reflexivity. Qed.

(** On a sample that has the index 20 the classifier returns, and its label
    is a function of the five comparisons. *)
Lemma detectGesture_classify (landmarks : list Landmark.t) :
  21 <= length landmarks ->
  detectGesture landmarks =
    Ok (classify_spec (thumb_extended landmarks)
          (finger_extended landmarks 0) (finger_extended landmarks 1)
          (finger_extended landmarks 2) (finger_extended landmarks 3)).
Proof.
  intros Hlen. unfold detectGesture.
  rewrite !prop_lookup by lia. cbn [rbind for_loop].
  rewrite !prop_lookup by (simpl; lia). cbn [rbind for_loop].
  unfold thumb_extended, finger_extended. simpl Nat.add. simpl Nat.mul.
  destruct (_ <? _)%js, (_ <? _)%js, (_ <? _)%js, (_ <? _)%js, (_ <? _)%js;
    reflexivity.
Qed.

(** The classifier throws on every sample without the index 20. *)
Lemma detectGesture_short (landmarks : list Landmark.t) :
  length landmarks < 21 -> detectGesture landmarks = Throw TypeError.
Proof.
  intros Hlen. unfold detectGesture.
  destruct (le_lt_dec (length landmarks) 4) as [H4 | H4].
  { rewrite (prop_lookup_ge _ _ 4) by lia. reflexivity. }
  rewrite !prop_lookup by lia. cbn [rbind for_loop].
  destruct (le_lt_dec (length landmarks) 8) as [H8 | H8].
  { rewrite (prop_lookup_ge _ _ (8 + 0 * 4)) by (simpl; lia). reflexivity. }
  rewrite !prop_lookup by (simpl; lia). cbn [rbind for_loop].
  destruct (le_lt_dec (length landmarks) 12) as [H12 | H12].
  { rewrite (prop_lookup_ge _ _ (8 + 1 * 4)) by (simpl; lia). reflexivity. }
  rewrite !prop_lookup by (simpl; lia). cbn [rbind for_loop].
  destruct (le_lt_dec (length landmarks) 16) as [H16 | H16].
  { rewrite (prop_lookup_ge _ _ (8 + 2 * 4)) by (simpl; lia). reflexivity. }
  rewrite !prop_lookup by (simpl; lia). cbn [rbind for_loop].
  rewrite (prop_lookup_ge _ _ (8 + 3 * 4)) by (simpl; lia). reflexivity.
Qed.

Lemma tip_lt_joint (b : bool) : JS.lt (tip_coordinate b) (JS.Fin 0.5) = b.
Proof.
  destruct b; unfold JS.lt, tip_coordinate;
    match goal with |- context [Rlt_dec ?a ?c] => destruct (Rlt_dec a c) end;
    first [reflexivity | lra].
Qed.

(** Every vector of extended fingers is the vector of some sample. *)
Lemma detectGesture_sample_of (thumb index middle ring pinky : bool) :
  detectGesture (sample_of thumb index middle ring pinky) =
    Ok (classify_spec thumb index middle ring pinky).
Proof.
  rewrite detectGesture_classify by (simpl; lia).
  unfold thumb_extended, finger_extended, landmark_at. simpl.
  rewrite !tip_lt_joint. reflexivity.
Qed.

Lemma detectGesture_fist_sample : detectGesture fist_sample = Ok fist.
Proof.
  rewrite detectGesture_classify by (simpl; lia).
  unfold thumb_extended, finger_extended, landmark_at. simpl.
  destruct (Rlt_dec 0 0) as [H | _]; [lra | reflexivity].
Qed.

(** C2: on every sample of at least 21 landmarks the classifier returns the
    label that the table of the five extension tests gives: open_hand for
    all five, fist for none, point for the index alone, peace for index and
    middle alone, unknown for every other vector; thumb and pinky alone give
    unknown. *)
Theorem detectGesture_extended_vector (landmarks : list Landmark.t) :
  21 <= length landmarks ->
  detectGesture landmarks =
    Ok (classify_spec (thumb_extended landmarks)
          (finger_extended landmarks 0) (finger_extended landmarks 1)
          (finger_extended landmarks 2) (finger_extended landmarks 3))
  /\ (thumb_extended landmarks = true ->
      finger_extended landmarks 0 = false ->
      finger_extended landmarks 1 = false ->
      finger_extended landmarks 2 = false ->
      finger_extended landmarks 3 = true ->
      detectGesture landmarks = Ok unknown).
Proof.
  intros Hlen. split.
  - apply detectGesture_classify, Hlen.
  - intros Ht Hi Hm Hr Hp.
    rewrite detectGesture_classify by exact Hlen.
    rewrite Ht, Hi, Hm, Hr, Hp. reflexivity.
Qed.

Lemma detectGesture_extended_vector_witness :
  detectGesture (sample_of true false false false true) = Ok unknown.
Proof.
  pose (s := sample_of true false false false true).
  assert (Hlen : 21 <= length s) by (vm_compute; lia).
  destruct (detectGesture_extended_vector s Hlen) as [_ H].
  apply H;
    first [exact (tip_lt_joint true) | exact (tip_lt_joint false)].
Defined.

(** ** Hand results callback *)

Lemma onHandResults_hand (landmarks : list Landmark.t)
    (rest : list (list Landmark.t)) (gesture : Gesture) (g : Globals) :
  detectGesture landmarks = Ok gesture ->
  onHandResults {| multiHandLandmarks := Some (landmarks :: rest) |} g =
    (Returned, gestureSwitch gesture (set_detected gesture g)).
Proof. intros H. unfold onHandResults. simpl. rewrite H. reflexivity. Qed.

Lemma gestureSwitch_detected (gesture : Gesture) (g : Globals) :
  detected (gestureState (gestureSwitch gesture g)) =
    detected (gestureState g).
Proof. destruct gesture; reflexivity. Qed.

(** C3, amended: a frame with a hand that the classifier labels sets
    [detected] to that label; a frame without a hand leaves the whole gesture
    state, [detected] included, as it was. *)
Theorem onHandResults_detected (results : Results) (g : Globals) :
  (forall landmarks rest gesture,
      multiHandLandmarks results = Some (landmarks :: rest) ->
      detectGesture landmarks = Ok gesture ->
      detected (gestureState (snd (onHandResults results g))) = gesture)
  /\ (multiHandLandmarks results = None \/
      multiHandLandmarks results = Some [] ->
      gestureState (snd (onHandResults results g)) = gestureState g).
Proof.
  split.
  - intros landmarks rest gesture Hr Hd. destruct results as [m].
    simpl in Hr. subst m. rewrite (onHandResults_hand _ _ _ _ Hd). simpl.
    rewrite gestureSwitch_detected. reflexivity.
  - intros [H | H]; destruct results as [m]; simpl in H; subst m; reflexivity.
Qed.

Lemma onHandResults_detected_witness :
  detected (gestureState (snd (onHandResults (one_hand fist_sample)
                                  initialGlobals))) = fist
  /\ gestureState (snd (onHandResults no_hands initialGlobals)) =
       gestureState initialGlobals.
Proof.
  split.
  - apply (proj1 (onHandResults_detected (one_hand fist_sample)
                    initialGlobals) fist_sample [] fist).
    + reflexivity.
    + exact detectGesture_fist_sample.
  - apply (proj2 (onHandResults_detected no_hands initialGlobals)).
    left. reflexivity.
Defined.

(** C3 as stated fails: after a fist frame, a frame without a hand leaves
    [detected] at fist; it is not set to none. *)
Lemma detected_stale_without_hand :
  detected (gestureState (run [HandResults (one_hand fist_sample);
                               HandResults no_hands] initialGlobals)) = fist
  /\ fist <> none.
Proof.
  split; [| discriminate].
  unfold run. simpl. unfold one_hand.
  rewrite (onHandResults_hand _ _ _ _ detectGesture_fist_sample).
  reflexivity.
Qed.

(** C4, amended: the classifier has no length check; on a sample of fewer
    than 21 landmarks it throws a TypeError at the first missing landmark,
    the exception leaves the callback, and no global is written. *)
Theorem onHandResults_short_sample_throws (landmarks : list Landmark.t)
    (rest : list (list Landmark.t)) (g : Globals) :
  length landmarks < 21 ->
  detectGesture landmarks = Throw TypeError
  /\ onHandResults {| multiHandLandmarks := Some (landmarks :: rest) |} g =
       (Thrown TypeError, g).
Proof.
  intros Hlen. pose proof (detectGesture_short landmarks Hlen) as H.
  split; [exact H |]. unfold onHandResults. simpl. rewrite H. reflexivity.
Qed.

Lemma onHandResults_short_sample_throws_witness :
  detectGesture (replicate 20 origin) = Throw TypeError
  /\ onHandResults (one_hand (replicate 20 origin)) initialGlobals =
       (Thrown TypeError, initialGlobals).
Proof.
  apply (onHandResults_short_sample_throws (replicate 20 origin) []
           initialGlobals).
  vm_compute. lia.
Defined.

(** C4 as stated fails: a sample of 20 landmarks is neither rejected by a
    check nor handled as a frame without a hand; the classifier reads the
    missing landmark 20 and the callback ends with an exception. *)
Lemma short_sample_not_no_hand :
  length (replicate 20 origin) < 21
  /\ fst (onHandResults (one_hand (replicate 20 origin)) initialGlobals) =
       Thrown TypeError
  /\ fst (onHandResults no_hands initialGlobals) = Returned
  /\ onHandResults (one_hand (replicate 20 origin)) initialGlobals <>
       onHandResults no_hands initialGlobals.
Proof.
  assert (Hlen : length (replicate 20 origin) < 21) by (vm_compute; lia).
  assert (H : onHandResults (one_hand (replicate 20 origin)) initialGlobals =
              (Thrown TypeError, initialGlobals)).
  { unfold onHandResults, one_hand. cbn [multiHandLandmarks].
    rewrite (detectGesture_short _ Hlen). reflexivity. }
  split; [exact Hlen |]. rewrite H.
  split; [reflexivity |]. split; [reflexivity |]. discriminate.
Qed.

(** ** The range of the gesture state *)

Lemma initial_in_range : gesture_state_in_range initialGestureState.
Proof.
  exists 1%R, 0%R. simpl. repeat split; try reflexivity; lra.
Qed.

Lemma gestureSwitch_in_range (gesture : Gesture) (g : Globals) :
  gesture_state_in_range (gestureState g) ->
  gesture_state_in_range (gestureState (gestureSwitch gesture g)).
Proof.
  intros (e & c & He & Hre & Hc & Hrc).
  destruct gesture; simpl; unfold gesture_state_in_range; simpl.
  - (* open_hand *)
    rewrite He. exists (Rmin (e + 0.02) 2.0), c.
    repeat split; try assumption; try lra.
    + apply Rmin_glb; lra.
    + apply Rmin_r.
  - (* fist *)
    rewrite He. exists (Rmax (e - 0.02) 0.3), c.
    repeat split; try assumption; try lra.
    + apply Rmax_r.
    + apply Rmax_lub; lra.
  - (* point *)
    exists e, c. repeat split; assumption || lra.
  - (* peace *)
    rewrite Hc. simpl JS.add.
    destruct (rem_1_range (c + 0.01)) as (c' & Hc' & Hrc'); [lra |].
    exists e, c'. unfold JS.add, JS.lift2. rewrite Hc'.
    repeat split; assumption || lra.
  - exists e, c. repeat split; assumption || lra.
  - exists e, c. repeat split; assumption || lra.
Qed.

Lemma step_in_range (g : Globals) (ev : Event) :
  gesture_state_in_range (gestureState g) ->
  gesture_state_in_range (gestureState (step g ev)).
Proof.
  intros Hg. destruct ev as [[m] |]; simpl.
  - unfold onHandResults. simpl.
    destruct m as [[| landmarks rest] |]; simpl; try exact Hg.
    destruct (detectGesture landmarks) as [gesture | e]; simpl.
    + apply gestureSwitch_in_range. exact Hg.
    + exact Hg.
  - apply initial_in_range.
Qed.

Lemma run_in_range (evs : list Event) (g : Globals) :
  gesture_state_in_range (gestureState g) ->
  gesture_state_in_range (gestureState (run evs g)).
Proof.
  revert g. induction evs as [| ev evs IH]; intros g Hg; simpl.
  - exact Hg.
  - apply IH, step_in_range, Hg.
Qed.

(** C1: after every sequence of hand-results callbacks (whatever their
    results, so whatever label the classifier gives, a frame without a hand
    and a callback that throws included) and reset clicks from the initial
    state, [expansion] is a number in [0.3, 2.0] and [colorShift] a number
    in [0, 1). *)
Theorem gestureState_stays_in_range (evs : list Event) :
  exists e c : R,
    expansion (gestureState (run evs initialGlobals)) = JS.Fin e
    /\ (0.3 <= e <= 2.0)%R
    /\ colorShift (gestureState (run evs initialGlobals)) = JS.Fin c
    /\ (0 <= c < 1)%R.
Proof. apply run_in_range, initial_in_range. Qed.

(** ** Arithmetic of the layout templates *)

Arguments JS.div : simpl never.
Arguments JS.rem : simpl never.
Arguments JS.acos : simpl never.
Arguments JS.sqrt : simpl never.
Arguments JS.lt : simpl never.

Lemma div_Fin (a b : R) :
  b <> 0%R -> JS.div (JS.Fin a) (JS.Fin b) = JS.Fin (a / b).
Proof.
  intros Hb. unfold JS.div.
  destruct (Req_dec_T b 0); [contradiction | reflexivity].
Qed.

Lemma rem_Fin (a b : R) :
  b <> 0%R ->
  JS.rem (JS.Fin a) (JS.Fin b) = JS.Fin (a - b * IZR (JS.trunc (a / b))).
Proof.
  intros Hb. unfold JS.rem.
  destruct (Req_dec_T b 0); [contradiction | reflexivity].
Qed.

Lemma acos_Fin (a : R) :
  (-1 <= a <= 1)%R -> JS.acos (JS.Fin a) = JS.Fin (Ratan.acos a).
Proof.
  intros [H1 H2]. unfold JS.acos.
  destruct (Rle_dec (-1) a); [| contradiction].
  destruct (Rle_dec a 1); [reflexivity | contradiction].
Qed.

Lemma sqrt_Fin (a : R) :
  (0 <= a)%R -> JS.sqrt (JS.Fin a) = JS.Fin (R_sqrt.sqrt a).
Proof.
  intros H. unfold JS.sqrt.
  destruct (Rle_dec 0 a); [reflexivity | contradiction].
Qed.

Lemma lt_Fin_true (a b : R) :
  (a < b)%R -> JS.lt (JS.Fin a) (JS.Fin b) = true.
Proof.
  intros H. unfold JS.lt.
  destruct (Rlt_dec a b); [reflexivity | contradiction].
Qed.

Lemma lt_Fin_false (a b : R) :
  (b <= a)%R -> JS.lt (JS.Fin a) (JS.Fin b) = false.
Proof.
  intros H. unfold JS.lt. destruct (Rlt_dec a b); [lra | reflexivity].
Qed.

Lemma div_nonneg (a b : R) : (0 <= a)%R -> (0 < b)%R -> (0 <= a / b)%R.
Proof. intros Ha Hb. unfold Rdiv. apply Rle_mult_inv_pos; assumption. Qed.

(** The quotient and the remainder of a non-negative number by a positive
    one. *)
Lemma quotient_bounds (a b : R) :
  (0 <= a)%R -> (0 < b)%R ->
  (0 <= IZR (Zfloor (a / b)))%R /\ (IZR (Zfloor (a / b)) * b <= a)%R
  /\ (a < (IZR (Zfloor (a / b)) + 1) * b)%R.
Proof.
  intros Ha Hb.
  assert (Hq : (0 <= a / b)%R) by (apply div_nonneg; assumption).
  pose proof (Zfloor_bound (a / b)) as [Hl Hu].
  assert (Heq : (a = a / b * b)%R) by (field; lra).
  split.
  - apply IZR_le. apply (Zfloor_lub 0). simpl. exact Hq.
  - split.
    + rewrite Heq at 2. apply Rmult_le_compat_r; lra.
    + rewrite Heq at 1. apply Rmult_lt_compat_r; lra.
Qed.

Lemma remainder_bounds (a b : R) :
  (0 <= a)%R -> (0 < b)%R ->
  (0 <= a - b * IZR (JS.trunc (a / b)) < b)%R.
Proof.
  intros Ha Hb.
  rewrite trunc_nonneg by (apply div_nonneg; assumption).
  destruct (quotient_bounds a b Ha Hb) as (_ & Hl & Hu). lra.
Qed.

(** The argument of [Math.acos] in the Fibonacci spheres. *)
Lemma sphere_argument (a t : R) :
  (0 <= a <= t)%R -> (0 < t)%R -> (-1 <= -1 + 2 * a / t <= 1)%R.
Proof.
  intros [Ha1 Ha2] Ht.
  assert (H0 : (0 <= 2 * a / t)%R) by (apply div_nonneg; lra).
  assert (H2 : (2 * a / t <= 2)%R).
  { apply Rmult_le_reg_r with (r := t); [exact Ht |].
    replace (2 * a / t * t)%R with (2 * a)%R by (field; lra). lra. }
  lra.
Qed.

(** The cube root. *)
Lemma Rcbrt_pos (v : R) : (0 < v)%R -> (0 < JS.Rcbrt v)%R.
Proof.
  intros Hv. unfold JS.Rcbrt. destruct (Rlt_dec 0 v); [| contradiction].
  unfold Rpower. apply exp_pos.
Qed.

Lemma Rcbrt_cube (v : R) :
  (0 < v)%R -> (JS.Rcbrt v * JS.Rcbrt v * JS.Rcbrt v = v)%R.
Proof.
  intros Hv. unfold JS.Rcbrt. destruct (Rlt_dec 0 v); [| contradiction].
  rewrite <- !Rpower_plus.
  replace (/ 3 + / 3 + / 3)%R with 1%R by field.
  apply Rpower_1, Hv.
Qed.

Lemma INR_index (i count : nat) :
  i < count ->
  (0 <= INR i)%R /\ (INR i + 1 <= INR count)%R /\ (1 <= INR count)%R.
Proof.
  intros H. pose proof (pos_INR i) as Hi.
  assert (H1 : (INR (Datatypes.S i) <= INR count)%R) by (apply le_INR; lia).
  rewrite S_INR in H1. lra.
Qed.

(** ** The layout templates produce finite vectors *)

Section TemplateFinite.

Variables (i count : nat) (s : RandomSource).
Hypothesis Hi : i < count.

Local Ltac index_facts :=
  destruct (INR_index i count Hi) as (H0 & H1 & H2);
  pose proof PI_RGT_0 as Hpi.

Local Ltac start T :=
  index_facts; unfold T, JS.of_nat, ret, bind, Math_random, Vector3.finite;
  cbn.

Lemma sphere_finite :
  Vector3.finite (fst (templates.sphere (JS.of_nat i) (JS.of_nat count) s)).
Proof.
  start templates.sphere.
  rewrite div_Fin by lra. cbn.
  rewrite acos_Fin by (apply sphere_argument; lra).
  rewrite sqrt_Fin by nra. cbn. auto.
Qed.

Lemma heart_finite :
  Vector3.finite (fst (templates.heart (JS.of_nat i) (JS.of_nat count) s)).
Proof.
  start templates.heart.
  rewrite rem_Fin by lra. rewrite !div_Fin by lra. cbn. auto.
Qed.

Lemma flower_finite :
  Vector3.finite (fst (templates.flower (JS.of_nat i) (JS.of_nat count) s)).
Proof.
  start templates.flower.
  rewrite (div_Fin (INR count) 5) by lra.
  rewrite !div_Fin by lra. cbn. auto.
Qed.

Lemma saturn_finite :
  Vector3.finite (fst (templates.saturn (JS.of_nat i) (JS.of_nat count) s)).
Proof.
  start templates.saturn.
  destruct (Rlt_dec (INR i) (INR count * 0.6)) as [Hlt | Hge].
  - rewrite lt_Fin_true by exact Hlt. cbn.
    rewrite div_Fin by lra. cbn. auto.
  - rewrite lt_Fin_false by lra. cbn.
    rewrite div_Fin by lra. cbn.
    rewrite acos_Fin by (apply sphere_argument; lra).
    rewrite sqrt_Fin by nra. cbn. auto.
Qed.

Lemma fireworks_finite :
  Vector3.finite (fst (templates.fireworks (JS.of_nat i) (JS.of_nat count) s)).
Proof.
  start templates.fireworks.
  rewrite (div_Fin (INR count) 8) by lra.
  assert (Hb : (0 < INR count / 8)%R) by lra.
  pose proof (remainder_bounds (INR i) (INR count / 8) H0 Hb) as Hr.
  rewrite rem_Fin by lra. rewrite (div_Fin (INR i)) by lra. cbn.
  rewrite !div_Fin by lra. cbn.
  rewrite acos_Fin by (apply sphere_argument; lra).
  rewrite sqrt_Fin by nra. cbn. auto.
Qed.

Lemma spiral_finite :
  Vector3.finite (fst (templates.spiral (JS.of_nat i) (JS.of_nat count) s)).
Proof.
  start templates.spiral. rewrite !div_Fin by lra. cbn. auto.
Qed.

Lemma cube_finite :
  Vector3.finite (fst (templates.cube (JS.of_nat i) (JS.of_nat count) s)).
Proof.
  start templates.cube.
  assert (Hs : (0 < JS.Rcbrt (INR count))%R) by (apply Rcbrt_pos; lra).
  rewrite !rem_Fin by lra. rewrite !div_Fin by lra. cbn.
  rewrite !rem_Fin by lra. rewrite !div_Fin by nra. cbn. auto.
Qed.

Lemma wave_finite :
  Vector3.finite (fst (templates.wave (JS.of_nat i) (JS.of_nat count) s)).
Proof.
  start templates.wave.
  rewrite sqrt_Fin by lra.
  assert (Hs : (0 < R_sqrt.sqrt (INR count))%R) by (apply sqrt_lt_R0; lra).
  rewrite !rem_Fin by lra. rewrite !div_Fin by lra. cbn. auto.
Qed.

Lemma templateFunc_finite (name : TemplateName) :
  Vector3.finite (fst (templateFunc name (JS.of_nat i) (JS.of_nat count) s)).
Proof.
  destruct name; simpl templateFunc.
  - apply sphere_finite.
  - apply heart_finite.
  - apply flower_finite.
  - apply saturn_finite.
  - apply fireworks_finite.
  - apply spiral_finite.
  - apply cube_finite.
  - apply wave_finite.
Qed.

End TemplateFinite.

(** ** Loops *)

Lemma for_each_invariant {S : Type} (P : nat -> S -> Prop)
    (body : nat -> S -> S) (n lo : nat) (s : S) :
  P lo s ->
  (forall i st, lo <= i < lo + n -> P i st -> P (Datatypes.S i) (body i st)) ->
  P (lo + n) (for_each n lo body s).
Proof.
  revert lo s. induction n as [| n IH]; intros lo s H0 Hstep; simpl.
  - rewrite Nat.add_0_r. exact H0.
  - replace (lo + Datatypes.S n) with (Datatypes.S lo + n) by lia.
    apply IH.
    + apply Hstep; [lia | exact H0].
    + intros i st Hi. apply Hstep. lia.
Qed.

Lemma for_rand_invariant {S : Type} (P : nat -> S -> Prop)
    (body : nat -> S -> Rand S) (n lo : nat) (s : S) (src : RandomSource) :
  P lo s ->
  (forall i st src', lo <= i < lo + n -> P i st ->
     P (Datatypes.S i) (fst (body i st src'))) ->
  P (lo + n) (fst (for_rand n lo body s src)).
Proof.
  revert lo s src. induction n as [| n IH]; intros lo s src H0 Hstep; simpl.
  - rewrite Nat.add_0_r. exact H0.
  - replace (lo + Datatypes.S n) with (Datatypes.S lo + n) by lia.
    unfold bind. destruct (body lo s src) as [s' src'] eqn:Hb.
    apply IH.
    + replace s' with (fst (body lo s src)) by (rewrite Hb; reflexivity).
      apply Hstep; [lia | exact H0].
    + intros i st src'' Hi. apply Hstep. lia.
Qed.

(** Two runs of a loop on two random sources keep a relation between their
    states that every iteration keeps. *)
Lemma for_rand_related {S : Type} (Rel : S -> S -> Prop)
    (body : nat -> S -> Rand S) (n lo : nat) (s1 s2 : S)
    (src1 src2 : RandomSource) :
  Rel s1 s2 ->
  (forall i a b x y, Rel a b -> Rel (fst (body i a x)) (fst (body i b y))) ->
  Rel (fst (for_rand n lo body s1 src1)) (fst (for_rand n lo body s2 src2)).
Proof.
  revert lo s1 s2 src1 src2.
  induction n as [| n IH]; intros lo s1 s2 src1 src2 H0 Hstep; simpl.
  - exact H0.
  - unfold bind.
    destruct (body lo s1 src1) as [a x] eqn:Ha.
    destruct (body lo s2 src2) as [b y] eqn:Hb.
    apply IH; [| exact Hstep].
    replace a with (fst (body lo s1 src1)) by (rewrite Ha; reflexivity).
    replace b with (fst (body lo s2 src2)) by (rewrite Hb; reflexivity).
    apply Hstep, H0.
Qed.

(** ** createParticles *)

Section CreateParticles.

Variable offsetHSL : Color.t -> JS.number -> JS.number -> JS.number -> Color.t.
Variables (currentTemplate : TemplateName) (particleCount : nat).
Variable baseColor : Color.t.

Lemma createParticles_body_positions (i : nat) (p : Points)
    (src : RandomSource) :
  let pos :=
    fst (templateFunc currentTemplate (JS.of_nat i) (JS.of_nat particleCount)
           src) in
  positions (fst (createParticles_body offsetHSL currentTemplate
                    particleCount baseColor i p src)) =
    <[i * 3 + 2 := Vector3.z pos]>
      (<[i * 3 + 1 := Vector3.y pos]>
         (<[i * 3 := Vector3.x pos]> (positions p))).
Proof.
  unfold createParticles_body, bind.
  destruct (templateFunc currentTemplate _ _ src) as [pos src'].
  reflexivity.
Qed.

Lemma createParticles_body_filled (i : nat) (p : Points)
    (src : RandomSource) :
  i < particleCount ->
  positions_filled particleCount i p ->
  positions_filled particleCount (Datatypes.S i)
    (fst (createParticles_body offsetHSL currentTemplate particleCount
            baseColor i p src)).
Proof.
  intros Hi [Hlen Hfin]. unfold positions_filled.
  rewrite createParticles_body_positions.
  pose proof (templateFunc_finite i particleCount src Hi currentTemplate)
    as (Hx & Hy & Hz).
  destruct (templateFunc currentTemplate _ _ src) as [[vx vy vz] src'].
  cbn [fst Vector3.x Vector3.y Vector3.z] in *. split.
  - rewrite !length_insert. exact Hlen.
  - intros k Hk.
    destruct (decide (k = i * 3 + 2)) as [-> | Hk2].
    { rewrite list_lookup_insert_eq by (rewrite !length_insert; lia).
      destruct vz; [eauto | contradiction]. }
    rewrite list_lookup_insert_ne by lia.
    destruct (decide (k = i * 3 + 1)) as [-> | Hk1].
    { rewrite list_lookup_insert_eq by (rewrite !length_insert; lia).
      destruct vy; [eauto | contradiction]. }
    rewrite list_lookup_insert_ne by lia.
    destruct (decide (k = i * 3)) as [-> | Hk0].
    { rewrite list_lookup_insert_eq by lia.
      destruct vx; [eauto | contradiction]. }
    rewrite list_lookup_insert_ne by lia.
    apply Hfin. lia.
Qed.

Lemma createParticles_filled (src : RandomSource) :
  positions_filled particleCount particleCount
    (fst (createParticles offsetHSL currentTemplate particleCount baseColor
            src)).
Proof.
  unfold createParticles.
  apply (for_rand_invariant (positions_filled particleCount) _ particleCount 0).
  - split.
    + simpl. unfold new_Float32Array. apply length_replicate.
    + intros k Hk. lia.
  - intros i st src' Hi Hst.
    apply createParticles_body_filled; [lia | exact Hst].
Qed.

End CreateParticles.

(** C5: for each of the eight templates and every count of at least 1, the
    position array that [createParticles] fills has exactly three slots for
    each of the count particles and every slot holds a finite number; every
    call of the
    template function for an index below count returns a vector of three
    finite numbers, so no [Math.acos] argument leaves [-1, 1] and no divisor
    is zero. *)
Theorem createParticles_positions_finite
    (offsetHSL : Color.t -> JS.number -> JS.number -> JS.number -> Color.t)
    (name : TemplateName) (count : nat) (baseColor : Color.t)
    (src : RandomSource) :
  1 <= count ->
  length (positions (fst (createParticles offsetHSL name count baseColor src)))
    = count * 3
  /\ (forall k, k < count * 3 ->
        exists r : R,
          positions (fst (createParticles offsetHSL name count baseColor src))
            !! k = Some (JS.Fin r))
  /\ (forall i src', i < count ->
        Vector3.finite
          (fst (templateFunc name (JS.of_nat i) (JS.of_nat count) src'))).
Proof.
  intros _.
  destruct (createParticles_filled offsetHSL name count baseColor src)
    as [Hlen Hfin].
  split; [exact Hlen |]. split; [exact Hfin |].
  intros i src' Hi. apply templateFunc_finite, Hi.
Qed.

Lemma createParticles_positions_finite_witness :
  exists r : R,
    positions (fst (createParticles (fun c _ _ _ => c) fireworks 3
                      (Color.mk 0%R 1%R 1%R) (fun _ => 0.5%R)))
      !! 7 = Some (JS.Fin r).
Proof.
  apply (createParticles_positions_finite (fun c _ _ _ => c) fireworks 3
           (Color.mk 0%R 1%R 1%R) (fun _ => 0.5%R)); lia.
Defined.

(** ** Templates and the random source *)

(** A template other than saturn and fireworks returns a vector that does
    not depend on the random source and hands the source back as it got
    it. *)
Lemma templateFunc_pure (name : TemplateName) (i total : JS.number) :
  name <> saturn -> name <> fireworks ->
  exists v : Vector3.t, forall src, templateFunc name i total src = (v, src).
Proof.
  intros Hs Hf.
  destruct name; try contradiction; eexists; intros src; reflexivity.
Qed.

Lemma createParticles_positions_any_source
    (offsetHSL : Color.t -> JS.number -> JS.number -> JS.number -> Color.t)
    (name : TemplateName) (count : nat) (baseColor : Color.t)
    (src1 src2 : RandomSource) :
  name <> saturn -> name <> fireworks ->
  positions (fst (createParticles offsetHSL name count baseColor src1)) =
  positions (fst (createParticles offsetHSL name count baseColor src2)).
Proof.
  intros Hs Hf. unfold createParticles.
  apply (for_rand_related (fun a b => positions a = positions b)).
  - reflexivity.
  - intros i a b x y Hab.
    rewrite !createParticles_body_positions.
    destruct (templateFunc_pure name (JS.of_nat i) (JS.of_nat count) Hs Hf)
      as [v Hv].
    rewrite !Hv, Hab. reflexivity.
Qed.

(** The ring branch of saturn draws its height from the source. *)
Lemma saturn_reads_source :
  fst (templates.saturn (JS.of_nat 0) (JS.of_nat 1) (fun _ => 0%R)) <>
  fst (templates.saturn (JS.of_nat 0) (JS.of_nat 1) (fun _ => 0.5%R)).
Proof.
  unfold templates.saturn, JS.of_nat, bind, ret, Math_random. cbn.
  rewrite lt_Fin_true by lra. cbn.
  rewrite div_Fin by lra. cbn.
  intros H. apply (f_equal Vector3.y) in H. cbn in H.
  injection H as H. lra.
Qed.

(** Fireworks draws the height of the burst center from the source. *)
Lemma fireworks_reads_source :
  fst (templates.fireworks (JS.of_nat 0) (JS.of_nat 1) (fun _ => 0%R)) <>
  fst (templates.fireworks (JS.of_nat 0) (JS.of_nat 1) (fun _ => 0.5%R)).
Proof.
  unfold templates.fireworks, JS.of_nat, bind, ret, Math_random. cbn.
  rewrite (div_Fin 1 8) by lra.
  assert (Hr : (0 <= 0 - 1 / 8 * IZR (JS.trunc (0 / (1 / 8))) < 1 / 8)%R)
    by (apply remainder_bounds; lra).
  pose proof PI_RGT_0 as Hpi.
  rewrite rem_Fin by lra. rewrite (div_Fin 0) by lra. cbn.
  rewrite !div_Fin by lra. cbn.
  rewrite acos_Fin by (apply sphere_argument; lra).
  rewrite sqrt_Fin by nra. cbn.
  intros H. apply (f_equal Vector3.y) in H. cbn in H.
  injection H as H. lra.
Qed.

(** C8: a template other than saturn and fireworks never consults the
    random source: its vector is the same on every source, the source comes
    back untouched, and the positions that [createParticles] fills are the
    same on every source; saturn and fireworks do read the source. *)
Theorem templates_deterministic_except_saturn_fireworks :
  (forall name : TemplateName,
      name <> saturn -> name <> fireworks ->
      (forall i total src1 src2,
          fst (templateFunc name i total src1) =
            fst (templateFunc name i total src2)
          /\ snd (templateFunc name i total src1) = src1)
      /\ (forall offsetHSL count baseColor src1 src2,
            positions
              (fst (createParticles offsetHSL name count baseColor src1)) =
            positions
              (fst (createParticles offsetHSL name count baseColor src2))))
  /\ (exists src1 src2,
        fst (templateFunc saturn (JS.of_nat 0) (JS.of_nat 1) src1) <>
        fst (templateFunc saturn (JS.of_nat 0) (JS.of_nat 1) src2))
  /\ (exists src1 src2,
        fst (templateFunc fireworks (JS.of_nat 0) (JS.of_nat 1) src1) <>
        fst (templateFunc fireworks (JS.of_nat 0) (JS.of_nat 1) src2)).
Proof.
  split; [| split].
  - intros name Hs Hf. split.
    + intros i total src1 src2.
      destruct (templateFunc_pure name i total Hs Hf) as [v Hv].
      rewrite !Hv. split; reflexivity.
    + intros. apply createParticles_positions_any_source; assumption.
  - exists (fun _ => 0%R), (fun _ => 0.5%R). exact saturn_reads_source.
  - exists (fun _ => 0%R), (fun _ => 0.5%R). exact fireworks_reads_source.
Qed.

Lemma templates_deterministic_except_saturn_fireworks_witness :
  positions (fst (createParticles (fun c _ _ _ => c) cube 8
                    (Color.mk 1%R 1%R 1%R) (fun _ => 0%R))) =
  positions (fst (createParticles (fun c _ _ _ => c) cube 8
                    (Color.mk 1%R 1%R 1%R) (fun _ => 0.5%R))).
Proof.
  apply (proj1 templates_deterministic_except_saturn_fireworks cube);
    discriminate.
Defined.

(** ** The flower template *)

Lemma flower_layer_range (i count : nat) :
  i < count -> (0 <= Zfloor (INR i / (INR count / 5)) <= 4)%Z.
Proof.
  intros Hi. destruct (INR_index i count Hi) as (H0 & H1 & H2).
  assert (Hb : (0 < INR count / 5)%R) by lra.
  destruct (quotient_bounds (INR i) (INR count / 5) H0 Hb) as (Hq0 & Hql & _).
  split.
  - apply le_IZR. exact Hq0.
  - apply Z.lt_succ_r. apply lt_IZR. change (Z.succ 4) with 5%Z.
    apply Rmult_lt_reg_r with (r := (INR count / 5)%R); [exact Hb |]. lra.
Qed.

Lemma flower_value (i count : nat) (src : RandomSource) :
  i < count ->
  fst (templates.flower (JS.of_nat i) (JS.of_nat count) src) =
    Vector3.mk
      (JS.Fin ((3 + sin (INR i / INR count * PI * 2 * 5) * 2)
               * cos (INR i / INR count * PI * 2)))
      (JS.Fin (-3.75 + 1.5 * IZR (Zfloor (INR i / (INR count / 5)))))
      (JS.Fin ((3 + sin (INR i / INR count * PI * 2 * 5) * 2)
               * sin (INR i / INR count * PI * 2))).
Proof.
  intros Hi. destruct (INR_index i count Hi) as (H0 & H1 & H2).
  unfold templates.flower, JS.of_nat, ret. cbn.
  rewrite (div_Fin (INR count) 5) by lra.
  rewrite !div_Fin by lra. cbn.
  f_equal. f_equal. lra.
Qed.

(** C6, amended: particle [i] of the flower sits on the ring of radius
    [3 + 2 sin (5 angle)], [angle = i / count * 2 PI], at the height
    [-3.75 + 1.5 layer] of its layer [layer = floor (i / (count / 5))],
    one of 0 to 4: five heights 1.5 apart, from -3.75 to +2.25. *)
Theorem flower_ring_and_layer (i count : nat) (src : RandomSource) :
  1 <= count -> i < count ->
  exists layer : Z,
    layer = Zfloor (INR i / (INR count / 5))
    /\ (0 <= layer <= 4)%Z
    /\ fst (templates.flower (JS.of_nat i) (JS.of_nat count) src) =
         Vector3.mk
           (JS.Fin ((3 + sin (INR i / INR count * PI * 2 * 5) * 2)
                    * cos (INR i / INR count * PI * 2)))
           (JS.Fin (-3.75 + 1.5 * IZR layer))
           (JS.Fin ((3 + sin (INR i / INR count * PI * 2 * 5) * 2)
                    * sin (INR i / INR count * PI * 2)))
    /\ (-3.75 <= -3.75 + 1.5 * IZR layer <= 2.25)%R.
Proof.
  intros _ Hi. eexists. split; [reflexivity |].
  pose proof (flower_layer_range i count Hi) as [Hl Hu].
  split; [split; assumption |].
  split; [apply flower_value, Hi |].
  apply IZR_le in Hl, Hu. lra.
Qed.

Lemma flower_ring_and_layer_witness :
  exists layer : Z,
    layer = Zfloor (INR 4 / (INR 5 / 5))
    /\ (0 <= layer <= 4)%Z
    /\ fst (templates.flower (JS.of_nat 4) (JS.of_nat 5) (fun _ => 0%R)) =
         Vector3.mk
           (JS.Fin ((3 + sin (INR 4 / INR 5 * PI * 2 * 5) * 2)
                    * cos (INR 4 / INR 5 * PI * 2)))
           (JS.Fin (-3.75 + 1.5 * IZR layer))
           (JS.Fin ((3 + sin (INR 4 / INR 5 * PI * 2 * 5) * 2)
                    * sin (INR 4 / INR 5 * PI * 2)))
    /\ (-3.75 <= -3.75 + 1.5 * IZR layer <= 2.25)%R.
Proof.
  apply (flower_ring_and_layer 4 5 (fun _ => 0%R)); lia.
Defined.

(** C6 as stated fails: with five particles the last one is in the top
    layer, layer 4, and its height is 2.25, not the 3.75 that five evenly
    spaced heights from -3.75 to +3.75 end at. *)
Lemma flower_top_layer_height :
  Vector3.y (fst (templates.flower (JS.of_nat 4) (JS.of_nat 5)
                    (fun _ => 0%R))) = JS.Fin 2.25
  /\ flower_height_spec 4 = 3.75%R
  /\ JS.Fin 2.25 <> JS.Fin (flower_height_spec 4).
Proof.
  assert (Hl : Zfloor (INR 4 / (INR 5 / 5)) = 4%Z).
  { apply Zfloor_eq. simpl. lra. }
  assert (Hs : flower_height_spec 4 = 3.75%R).
  { unfold flower_height_spec. lra. }
  split; [| split].
  - rewrite flower_value by lia. cbn [Vector3.y]. rewrite Hl.
    f_equal. lra.
  - exact Hs.
  - rewrite Hs. intros H. injection H as H. lra.
Qed.

(** ** The cube template *)

Lemma centered_range (g s : R) :
  (0 < s)%R -> (0 <= g < s)%R -> (-5 <= (g - s / 2) * (10 / s) < 5)%R.
Proof.
  intros Hs [Hg0 Hg1].
  replace ((g - s / 2) * (10 / s))%R with (10 * (g / s) - 5)%R
    by (field; lra).
  assert (H0 : (0 <= g / s)%R) by (apply div_nonneg; lra).
  assert (H1 : (g / s < 1)%R).
  { apply Rmult_lt_reg_r with (r := s); [exact Hs |].
    replace (g / s * s)%R with g by (field; lra). lra. }
  lra.
Qed.

Lemma cube_value (i count : nat) (src : RandomSource) :
  i < count ->
  let s := JS.Rcbrt (INR count) in
  let row := IZR (Zfloor (INR i / s)) in
  fst (templates.cube (JS.of_nat i) (JS.of_nat count) src) =
    Vector3.mk
      (JS.Fin ((INR i - s * row - s / 2) * (10 / s)))
      (JS.Fin ((row - s * IZR (Zfloor (row / s)) - s / 2) * (10 / s)))
      (JS.Fin ((IZR (Zfloor (INR i / (s * s))) - s / 2) * (10 / s))).
Proof.
  intros Hi s row. destruct (INR_index i count Hi) as (H0 & H1 & H2).
  assert (Hs : (0 < s)%R) by (apply Rcbrt_pos; lra).
  assert (Hrow : (0 <= row)%R).
  { apply (quotient_bounds (INR i) s H0 Hs). }
  unfold templates.cube, JS.of_nat, ret. cbn. fold s.
  rewrite !rem_Fin by lra. rewrite !div_Fin by lra. cbn.
  rewrite !rem_Fin by lra. rewrite !div_Fin by nra. cbn.
  fold row.
  rewrite (trunc_nonneg (INR i / s)) by (apply div_nonneg; lra).
  rewrite (trunc_nonneg (row / s)) by (apply div_nonneg; lra).
  fold row. reflexivity.
Qed.

(** C7, amended: the side of the cube grid is the real cube root of count,
    not rounded up, so an integer only for a perfect cube; the index is
    decomposed by the real remainder and the floor of the real quotient
    into grid coordinates of [0, side), which are centered by half the side
    and scaled by 10 over the side. *)
Theorem cube_real_side_grid (i count : nat) (src : RandomSource) :
  1 <= count -> i < count ->
  exists s gx gy gz : R,
    (0 < s)%R /\ (s * s * s = INR count)%R
    /\ gx = (INR i - s * IZR (Zfloor (INR i / s)))%R
    /\ gy = (IZR (Zfloor (INR i / s))
             - s * IZR (Zfloor (IZR (Zfloor (INR i / s)) / s)))%R
    /\ gz = IZR (Zfloor (INR i / (s * s)))
    /\ (0 <= gx < s)%R /\ (0 <= gy < s)%R /\ (0 <= gz < s)%R
    /\ fst (templates.cube (JS.of_nat i) (JS.of_nat count) src) =
         Vector3.mk
           (JS.Fin ((gx - s / 2) * (10 / s)))
           (JS.Fin ((gy - s / 2) * (10 / s)))
           (JS.Fin ((gz - s / 2) * (10 / s))).
Proof.
  intros _ Hi. destruct (INR_index i count Hi) as (H0 & H1 & H2).
  set (s := JS.Rcbrt (INR count)).
  assert (Hs : (0 < s)%R) by (apply Rcbrt_pos; lra).
  assert (Hc : (s * s * s = INR count)%R) by (apply Rcbrt_cube; lra).
  destruct (quotient_bounds (INR i) s H0 Hs) as (Hr0 & Hr1 & Hr2).
  destruct (quotient_bounds _ s Hr0 Hs) as (_ & Hy1 & Hy2).
  assert (Hss : (0 < s * s)%R) by nra.
  destruct (quotient_bounds (INR i) (s * s) H0 Hss) as (Hz0 & Hz1 & _).
  assert (Hgx : (0 <= INR i - s * IZR (Zfloor (INR i / s)) < s)%R) by lra.
  assert (Hgy : (0 <= IZR (Zfloor (INR i / s))
                      - s * IZR (Zfloor (IZR (Zfloor (INR i / s)) / s))
                 < s)%R) by lra.
  assert (Hgz : (0 <= IZR (Zfloor (INR i / (s * s))) < s)%R).
  { split; [exact Hz0 |].
    apply Rmult_lt_reg_r with (r := (s * s)%R); [exact Hss |]. nra. }
  eexists s, _, _, _.
  split; [exact Hs |]. split; [exact Hc |].
  split; [reflexivity |]. split; [reflexivity |]. split; [reflexivity |].
  split; [exact Hgx |]. split; [exact Hgy |]. split; [exact Hgz |].
  rewrite cube_value by exact Hi. fold s. reflexivity.
Qed.

Lemma cube_real_side_grid_witness :
  exists s gx gy gz : R,
    (0 < s)%R /\ (s * s * s = INR 10)%R
    /\ gx = (INR 7 - s * IZR (Zfloor (INR 7 / s)))%R
    /\ gy = (IZR (Zfloor (INR 7 / s))
             - s * IZR (Zfloor (IZR (Zfloor (INR 7 / s)) / s)))%R
    /\ gz = IZR (Zfloor (INR 7 / (s * s)))
    /\ (0 <= gx < s)%R /\ (0 <= gy < s)%R /\ (0 <= gz < s)%R
    /\ fst (templates.cube (JS.of_nat 7) (JS.of_nat 10) (fun _ => 0%R)) =
         Vector3.mk
           (JS.Fin ((gx - s / 2) * (10 / s)))
           (JS.Fin ((gy - s / 2) * (10 / s)))
           (JS.Fin ((gz - s / 2) * (10 / s))).
Proof.
  apply (cube_real_side_grid 7 10 (fun _ => 0%R)); lia.
Defined.

Lemma Rcbrt_2_range : (1 < JS.Rcbrt (INR 2) < 2)%R.
Proof.
  assert (H2 : INR 2 = 2%R) by (simpl; lra).
  pose proof (Rcbrt_pos (INR 2)) as Hp.
  pose proof (Rcbrt_cube (INR 2)) as Hc.
  rewrite H2 in *. specialize (Hp ltac:(lra)). specialize (Hc ltac:(lra)).
  set (s := JS.Rcbrt 2) in *.
  split.
  - destruct (Rlt_dec 1 s) as [H | H]; [exact H | exfalso].
    assert (s * s <= 1)%R by nra. nra.
  - destruct (Rlt_dec s 2) as [H | H]; [exact H | exfalso].
    assert (4 <= s * s)%R by nra. nra.
Qed.

(** C7 as stated fails: for two particles the grid side that the claim
    gives is the integer 2, the side of the code is the cube root of 2,
    which is no integer, and particle 1 is not where the integer grid puts
    it. *)
Lemma cube_side_not_rounded :
  cube_side_spec 2 = 2%Z
  /\ (1 < JS.Rcbrt (INR 2) < 2)%R
  /\ fst (templates.cube (JS.of_nat 1) (JS.of_nat 2) (fun _ => 0%R)) <>
       cube_spec 1 2.
Proof.
  pose proof Rcbrt_2_range as [Hl Hu].
  assert (Hside : cube_side_spec 2 = 2%Z).
  { unfold cube_side_spec. apply Zceil_eq. simpl IZR. lra. }
  split; [exact Hside |]. split; [split; assumption |].
  rewrite cube_value by lia. unfold cube_spec. rewrite Hside.
  set (s := JS.Rcbrt (INR 2)) in *.
  assert (H1 : INR 1 = 1%R) by reflexivity.
  assert (Hq : Zfloor (INR 1 / s) = 0%Z).
  { apply Zfloor_eq. rewrite H1. simpl IZR. split.
    - apply div_nonneg; lra.
    - apply Rmult_lt_reg_r with (r := s); [lra |].
      replace (1 / s * s)%R with 1%R by (field; lra). lra. }
  rewrite Hq. intros H. apply (f_equal Vector3.x) in H.
  cbn [Vector3.x] in H. injection H as H.
  change (Z.of_nat 1 mod 2)%Z with 1%Z in H.
  assert (Hx : (0 < (1 - s * 0 - s / 2) * (10 / s))%R).
  { apply Rmult_lt_0_compat; [lra |].
    apply Rdiv_lt_0_compat; lra. }
  lra.
Qed.

(** ** updateParticles *)

Section UpdateParticles.

Variable setHSL : JS.number -> JS.number -> JS.number -> Color.t.
Variables (gs : GestureState) (particleCount : nat) (now : nat -> R).

Lemma body_colors (i : nat) (p : Points) :
  let c := frame_color setHSL gs particleCount i in
  colors (updateParticles_body setHSL gs particleCount now i p) =
    <[i * 3 + 2 := Color.b c]>
      (<[i * 3 + 1 := Color.g c]> (<[i * 3 := Color.r c]> (colors p))).
Proof. reflexivity. Qed.

Lemma body_positions (i : nat) (p : Points) :
  positions (updateParticles_body setHSL gs particleCount now i p) =
    <[i * 3 + 1 :=
        (to_number (positions p !! (i * 3 + 1)%nat) + frame_drift now i)%js]>
      (positions p).
Proof. reflexivity. Qed.

Lemma body_sizes (i : nat) (p : Points) :
  sizes (updateParticles_body setHSL gs particleCount now i p) = sizes p.
Proof. reflexivity. Qed.

(** What the loop leaves alone, whatever the lengths of the arrays. *)
Lemma loop_frame (n : nat) (p : Points) :
  frame_kept p
    (for_each n 0 (updateParticles_body setHSL gs particleCount now) p).
Proof.
  apply (for_each_invariant (fun _ st => frame_kept p st) _ n 0 p).
  - repeat split; reflexivity.
  - intros i st _ (Hs & Hp & Hc & Hm). unfold frame_kept.
    rewrite body_sizes, body_positions, body_colors. cbn zeta.
    rewrite !length_insert.
    repeat split; try assumption.
    + rewrite list_lookup_insert_ne by lia. apply Hm.
    + rewrite list_lookup_insert_ne by lia. apply Hm.
Qed.

(** What the loop writes into arrays of three slots for each particle. *)
Lemma loop_writes (p : Points) :
  length (positions p) = particleCount * 3 ->
  length (colors p) = particleCount * 3 ->
  forall j, j < particleCount ->
    particle_written setHSL gs particleCount now p
      (for_each particleCount 0
         (updateParticles_body setHSL gs particleCount now) p) j.
Proof.
  intros Hlp Hlc.
  apply (for_each_invariant
           (fun (i : nat) st =>
              length (positions st) = particleCount * 3
              /\ length (colors st) = particleCount * 3
              /\ (forall j, i <= j ->
                    positions st !! (j * 3 + 1) = positions p !! (j * 3 + 1))
              /\ forall j, j < i ->
                   particle_written setHSL gs particleCount now p st j)
           _ particleCount 0 p).
  - split; [exact Hlp |]. split; [exact Hlc |].
    split; [reflexivity | intros j Hj; lia].
  - intros i st Hi (Hp & Hc & Hrest & Hdone). unfold particle_written.
    rewrite body_positions, body_colors. cbn zeta. rewrite !length_insert.
    split; [exact Hp |]. split; [exact Hc |]. split.
    + intros j Hj. rewrite list_lookup_insert_ne by lia. apply Hrest. lia.
    + intros j Hj. destruct (decide (j = i)) as [-> | Hne].
      * rewrite (list_lookup_insert_ne _ (i * 3 + 2) (i * 3)) by lia.
        rewrite (list_lookup_insert_ne _ (i * 3 + 1) (i * 3)) by lia.
        rewrite (list_lookup_insert_ne _ (i * 3 + 2) (i * 3 + 1)) by lia.
        rewrite !list_lookup_insert_eq by (rewrite ?length_insert; lia).
        rewrite (Hrest i) by lia. repeat split; reflexivity.
      * rewrite !list_lookup_insert_ne by lia. apply Hdone. lia.
Qed.

End UpdateParticles.

(** C9, amended: on arrays of three slots for each of the count particles,
    one call of [updateParticles] overwrites the three colour slots of every
    particle [i] with the components of the colour of hue
    [(colorShift + (i / count) * 0.1) % 1], saturation 0.8 and lightness
    0.5, whatever the slots held, and adds
    [sin (t_i + i * 0.1) * 0.002] to the y slot of particle [i], where
    [t_i] is the clock reading in seconds that iteration [i] takes anew;
    the three arrays keep their lengths. *)
Theorem updateParticles_colors_and_drift
    (setHSL : JS.number -> JS.number -> JS.number -> Color.t)
    (gs : GestureState) (count : nat) (now : nat -> R) (p : Points) :
  length (positions p) = count * 3 ->
  length (colors p) = count * 3 ->
  exists p' : Points,
    updateParticles setHSL gs count now (Some p) = Some p'
    /\ length (positions p') = count * 3
    /\ length (colors p') = count * 3
    /\ length (sizes p') = length (sizes p)
    /\ forall i, i < count ->
         let color :=
           setHSL
             ((colorShift gs + (JS.of_nat i / JS.of_nat count) * 0.1%R)
              mod 1%R)%js 0.8%R 0.5%R in
         colors p' !! (i * 3) = Some (Color.r color)
         /\ colors p' !! (i * 3 + 1) = Some (Color.g color)
         /\ colors p' !! (i * 3 + 2) = Some (Color.b color)
         /\ positions p' !! (i * 3 + 1) =
              Some (to_number (positions p !! (i * 3 + 1)%nat)
                    + JS.Fin (sin (now i * 0.001 + INR i * 0.1) * 0.002))%js.
Proof.
  intros Hlp Hlc. eexists. split; [reflexivity |].
  match goal with
  | |- context [for_each count 0 ?b ?q] =>
      pose proof (loop_frame setHSL gs count now count q)
        as (Hs & Hp & Hc & _);
      pose proof (loop_writes setHSL gs count now q Hlp Hlc) as Hw
  end.
  unfold particle_written, frame_color, frame_drift in Hw.
  simpl positions in *. simpl colors in *. simpl sizes in *.
  split; [rewrite Hp; exact Hlp |]. split; [rewrite Hc; exact Hlc |].
  split; [rewrite Hs; reflexivity |].
  intros i Hi. exact (Hw i Hi).
Qed.

Lemma updateParticles_colors_and_drift_witness :
  exists p' : Points,
    updateParticles grey_of_hue turning_state 2
      (fun i => 1000 + INR i)%R (Some two_particles) = Some p'
    /\ length (positions p') = 6 /\ length (colors p') = 6
    /\ colors p' !! 3 =
         Some ((JS.Fin 0.97 + (JS.of_nat 1 / JS.of_nat 2) * 0.1%R)
               mod 1%R)%js
    /\ positions p' !! 4 =
         Some (JS.Fin (-2)
               + JS.Fin (sin ((1000 + INR 1) * 0.001 + INR 1 * 0.1)
                         * 0.002))%js.
Proof.
  destruct (updateParticles_colors_and_drift grey_of_hue turning_state
              2 (fun i => 1000 + INR i)%R two_particles)
    as (p' & Hrun & Hlp & Hlc & _ & Hw); [reflexivity | reflexivity |].
  exists p'. split; [exact Hrun |]. split; [exact Hlp |].
  split; [exact Hlc |].
  destruct (Hw 1) as (Hr & _ & _ & Hy); [lia |].
  split; [exact Hr | exact Hy].
Defined.

(** C9 as stated fails: when the clock ticks between the two iterations of
    a frame over two particles (millisecond 0, then millisecond 1), no
    single time [elapsedSeconds] gives the two numbers that the frame adds
    to the y slots. *)
Lemma clock_tick_no_single_time :
  exists p' : Points,
    updateParticles grey_of_hue turning_state 2 ticking_clock
      (Some two_particles) = Some p'
    /\ ~ exists elapsedSeconds : R,
          positions p' !! 1 =
            Some (JS.Fin (2 + sin (elapsedSeconds + INR 0 * 0.1) * 0.002))
          /\ positions p' !! 4 =
               Some (JS.Fin (-2 + sin (elapsedSeconds + INR 1 * 0.1)
                                  * 0.002)).
Proof.
  eexists. split; [reflexivity |].
  match goal with
  | |- context [for_each 2 0 ?b ?q] =>
      pose proof (loop_writes grey_of_hue turning_state 2 ticking_clock q
                    eq_refl eq_refl) as Hw
  end.
  destruct (Hw 0 ltac:(lia)) as (_ & _ & _ & Hy0).
  destruct (Hw 1 ltac:(lia)) as (_ & _ & _ & Hy1).
  change (0 * 3 + 1) with 1 in Hy0. change (1 * 3 + 1) with 4 in Hy1.
  rewrite Hy0, Hy1. clear Hw Hy0 Hy1.
  unfold frame_drift, ticking_clock, two_particles. cbn.
  intros (e & H0 & H1).
  injection H0 as H0. injection H1 as H1.
  replace (0 * 0.001 + 0 * 0.1)%R with 0%R in H0 by lra.
  replace (e + 0 * 0.1)%R with e in H0 by lra.
  replace (1 * 0.001 + 1 * 0.1)%R with 0.101%R in H1 by lra.
  replace (e + 1 * 0.1)%R with (e + 0.1)%R in H1 by lra.
  rewrite sin_0 in H0.
  assert (He : sin e = 0%R) by lra.
  assert (Hs : sin (e + 0.1) = sin 0.101) by lra.
  rewrite sin_plus, He in Hs.
  pose proof (sin2_cos2 e) as Hc. unfold Rsqr in Hc. rewrite He in Hc.
  pose proof PI2_1 as Hpi.
  assert (Hpos : (0 < sin 0.1)%R).
  { rewrite <- sin_0. apply sin_increasing_1; lra. }
  assert (Hinc : (sin 0.1 < sin 0.101)%R)
    by (apply sin_increasing_1; lra).
  assert (Hcos : (cos e = 1 \/ cos e = -1)%R).
  { assert ((cos e - 1) * (cos e + 1) = 0)%R by lra.
    destruct (Rmult_integral _ _ H); [left | right]; lra. }
  destruct Hcos as [Hc1 | Hc1]; rewrite Hc1 in Hs; lra.
Qed.

(** C10: a call of [updateParticles] leaves the size array as it is, keeps
    the lengths of the three arrays, and leaves the x slot and the z slot of
    every particle as they are; before the particles exist it does
    nothing. *)
Theorem updateParticles_frame
    (setHSL : JS.number -> JS.number -> JS.number -> Color.t)
    (gs : GestureState) (count : nat) (now : nat -> R) :
  updateParticles setHSL gs count now None = None
  /\ forall p : Points,
       exists p' : Points,
         updateParticles setHSL gs count now (Some p) = Some p'
         /\ sizes p' = sizes p
         /\ length (positions p') = length (positions p)
         /\ length (colors p') = length (colors p)
         /\ length (sizes p') = length (sizes p)
         /\ forall i,
              positions p' !! (i * 3) = positions p !! (i * 3)
              /\ positions p' !! (i * 3 + 2) = positions p !! (i * 3 + 2).
Proof.
  split; [reflexivity |]. intros p. eexists. split; [reflexivity |].
  match goal with
  | |- context [for_each count 0 ?b ?q] =>
      pose proof (loop_frame setHSL gs count now count q)
        as (Hs & Hp & Hc & Hm)
  end.
  simpl positions in *. simpl colors in *. simpl sizes in *.
  split; [exact Hs |]. split; [exact Hp |]. split; [exact Hc |].
  split; [rewrite Hs; reflexivity |]. exact Hm.
Qed.

(** * Further properties of the layout templates *)

Lemma sphere_point_norm (r th ph : R) :
  (r * cos th * sin ph * (r * cos th * sin ph)
   + r * sin th * sin ph * (r * sin th * sin ph)
   + r * cos ph * (r * cos ph) = r * r)%R.
Proof.
  pose proof (sin2_cos2 th) as Hth. pose proof (sin2_cos2 ph) as Hph.
  unfold Rsqr in Hth, Hph.
  transitivity
    (r * r * ((sin th * sin th + cos th * cos th) * (sin ph * sin ph)
              + cos ph * cos ph))%R; [ring |].
  rewrite Hth, Rmult_1_l, Hph. ring.
Qed.

Lemma ring_point_norm (r a : R) :
  (r * cos a * (r * cos a) + r * sin a * (r * sin a) = r * r)%R.
Proof.
  pose proof (sin2_cos2 a) as Ha. unfold Rsqr in Ha.
  transitivity (r * r * (sin a * sin a + cos a * cos a))%R; [ring |].
  rewrite Ha. ring.
Qed.

(** Every particle of the sphere template lies on the sphere of radius 5
    around the origin. *)
Theorem sphere_on_radius_5 (i count : nat) (src : RandomSource) :
  i < count ->
  exists x y z : R,
    fst (templates.sphere (JS.of_nat i) (JS.of_nat count) src) =
      Vector3.mk (JS.Fin x) (JS.Fin y) (JS.Fin z)
    /\ (x * x + y * y + z * z = 25)%R.
Proof.
  intros Hi. destruct (INR_index i count Hi) as (H0 & H1 & H2).
  pose proof PI_RGT_0 as Hpi.
  unfold templates.sphere, JS.of_nat, ret. cbn.
  rewrite div_Fin by lra. cbn.
  rewrite acos_Fin by (apply sphere_argument; lra).
  rewrite sqrt_Fin by nra. cbn.
  eexists _, _, _. split; [reflexivity |].
  rewrite sphere_point_norm. lra.
Qed.

Lemma sphere_on_radius_5_witness :
  exists x y z : R,
    fst (templates.sphere (JS.of_nat 3) (JS.of_nat 10) (fun _ => 0%R)) =
      Vector3.mk (JS.Fin x) (JS.Fin y) (JS.Fin z)
    /\ (x * x + y * y + z * z = 25)%R.
Proof. apply (sphere_on_radius_5 3 10 (fun _ => 0%R)). lia. Defined.

(** The first 60% of the particles of saturn lie on a flat ring of radius
    in [5, 7] and height in [-0.25, 0.25), drawn by two calls of
    [Math.random()]; the others lie on the sphere of radius 3 and draw
    nothing. *)
Theorem saturn_ring_and_planet (i count : nat) (src : RandomSource) :
  i < count -> unit_source src ->
  ((INR i < INR count * 0.6)%R ->
     exists rho y a : R,
       fst (templates.saturn (JS.of_nat i) (JS.of_nat count) src) =
         Vector3.mk (JS.Fin (rho * cos a)) (JS.Fin y) (JS.Fin (rho * sin a))
       /\ rho = (5 + src 0%nat * 2)%R /\ (5 <= rho <= 7)%R
       /\ y = ((src 1%nat - 0.5) * 0.5)%R /\ (-0.25 <= y < 0.25)%R
       /\ a = (INR i / (INR count * 0.6) * PI * 2)%R
       /\ forall k,
            snd (templates.saturn (JS.of_nat i) (JS.of_nat count) src) k =
              src (2 + k))
  /\ ((INR count * 0.6 <= INR i)%R ->
        exists x y z : R,
          templates.saturn (JS.of_nat i) (JS.of_nat count) src =
            (Vector3.mk (JS.Fin x) (JS.Fin y) (JS.Fin z), src)
          /\ (x * x + y * y + z * z = 9)%R).
Proof.
  intros Hi Hsrc. destruct (INR_index i count Hi) as (H0 & H1 & H2).
  pose proof PI_RGT_0 as Hpi.
  pose proof (Hsrc 0) as Hr0. pose proof (Hsrc 1) as Hr1.
  unfold templates.saturn, JS.of_nat, ret, bind, Math_random. cbn.
  split; intros Hcmp.
  - rewrite lt_Fin_true by exact Hcmp. cbn.
    rewrite div_Fin by lra. cbn.
    eexists _, _, _. split; [reflexivity |].
    split; [reflexivity |]. split; [lra |].
    split; [reflexivity |]. split; [lra |].
    split; [reflexivity |]. intros k. reflexivity.
  - rewrite lt_Fin_false by exact Hcmp. cbn.
    rewrite div_Fin by lra. cbn.
    rewrite acos_Fin by (apply sphere_argument; lra).
    rewrite sqrt_Fin by nra. cbn.
    eexists _, _, _. split; [reflexivity |].
    rewrite sphere_point_norm. lra.
Qed.

Lemma saturn_ring_and_planet_witness :
  (exists rho y a : R,
     fst (templates.saturn (JS.of_nat 2) (JS.of_nat 10)
            (fun k => / (INR k + 2))%R) =
       Vector3.mk (JS.Fin (rho * cos a)) (JS.Fin y) (JS.Fin (rho * sin a))
     /\ rho = (5 + / (INR 0 + 2) * 2)%R /\ (5 <= rho <= 7)%R
     /\ y = ((/ (INR 1 + 2) - 0.5) * 0.5)%R /\ (-0.25 <= y < 0.25)%R)
  /\ exists x y z : R,
       templates.saturn (JS.of_nat 9) (JS.of_nat 10)
         (fun k => / (INR k + 2))%R =
         (Vector3.mk (JS.Fin x) (JS.Fin y) (JS.Fin z),
          (fun k => / (INR k + 2))%R)
       /\ (x * x + y * y + z * z = 9)%R.
Proof.
  assert (Hsrc : unit_source (fun k => / (INR k + 2))%R).
  { intros k. pose proof (pos_INR k) as Hk.
    assert (Hinv : (0 < / (INR k + 2))%R)
      by (apply Rinv_0_lt_compat; lra).
    split; [lra |].
    rewrite <- Rinv_1. apply Rinv_lt_contravar; lra. }
  split.
  - destruct (proj1 (saturn_ring_and_planet 2 10 _ ltac:(lia) Hsrc))
      as (rho & y & a & Hv & Hrho & Hr & Hy & Hyr & _).
    + simpl. lra.
    + exists rho, y, a.
      split; [exact Hv |]. split; [exact Hrho |]. split; [exact Hr |].
      split; [exact Hy | exact Hyr].
  - apply (proj2 (saturn_ring_and_planet 9 10 _ ltac:(lia) Hsrc)).
    simpl. lra.
Defined.

(** Every particle of fireworks lies at distance 1.5 from the center of its
    burst; the burst is one of eight, its center sits on the circle of
    radius 3 at the angle of an eighth turn per burst and at a height of
    [-2, 2) drawn by the one call of [Math.random()]. *)
Theorem fireworks_around_burst_center (i count : nat) (src : RandomSource) :
  i < count -> unit_source src ->
  exists (burst : Z) (cy x y z : R),
    burst = Zfloor (INR i / (INR count / 8))
    /\ (0 <= burst <= 7)%Z
    /\ cy = ((src 0%nat - 0.5) * 4)%R /\ (-2 <= cy < 2)%R
    /\ fst (templates.fireworks (JS.of_nat i) (JS.of_nat count) src) =
         Vector3.mk (JS.Fin x) (JS.Fin y) (JS.Fin z)
    /\ ((x - 3 * cos (IZR burst / 8 * PI * 2))
        * (x - 3 * cos (IZR burst / 8 * PI * 2))
        + (y - cy) * (y - cy)
        + (z - 3 * sin (IZR burst / 8 * PI * 2))
          * (z - 3 * sin (IZR burst / 8 * PI * 2)) = 1.5 * 1.5)%R
    /\ forall k,
         snd (templates.fireworks (JS.of_nat i) (JS.of_nat count) src) k =
           src (1 + k).
Proof.
  intros Hi Hsrc. destruct (INR_index i count Hi) as (H0 & H1 & H2).
  pose proof PI_RGT_0 as Hpi. pose proof (Hsrc 0) as Hr0.
  assert (Hb : (0 < INR count / 8)%R) by lra.
  pose proof (remainder_bounds (INR i) (INR count / 8) H0 Hb) as Hr.
  destruct (quotient_bounds (INR i) (INR count / 8) H0 Hb) as (Hq0 & Hql & _).
  unfold templates.fireworks, JS.of_nat, ret, bind, Math_random. cbn.
  rewrite (div_Fin (INR count) 8) by lra.
  rewrite rem_Fin by lra. rewrite (div_Fin (INR i)) by lra. cbn.
  rewrite !div_Fin by lra. cbn.
  rewrite acos_Fin by (apply sphere_argument; lra).
  rewrite sqrt_Fin by nra. cbn.
  eexists _, _, _, _, _. split; [reflexivity |].
  split.
  { split.
    - apply le_IZR. exact Hq0.
    - apply Z.lt_succ_r. apply lt_IZR. change (Z.succ 7) with 8%Z.
      apply Rmult_lt_reg_r with (r := (INR count / 8)%R); [exact Hb |]. lra. }
  split; [reflexivity |]. split; [lra |].
  split; [reflexivity |]. split.
  - match goal with
    | |- context [(1.5 * cos ?th * sin ?ph)%R] =>
        pose proof (sphere_point_norm 1.5 th ph) as Hn
    end.
    rewrite <- Hn. ring.
  - intros k. reflexivity.
Qed.

Lemma fireworks_around_burst_center_witness :
  exists (burst : Z) (cy : R),
    burst = Zfloor (INR 5 / (INR 16 / 8))
    /\ (0 <= burst <= 7)%Z
    /\ cy = ((0.25 - 0.5) * 4)%R /\ (-2 <= cy < 2)%R.
Proof.
  destruct (fireworks_around_burst_center 5 16 (fun _ => 0.25%R))
    as (burst & cy & _ & _ & _ & Hb & Hr & Hc & Hcy & _).
  - lia.
  - intros k. lra.
  - exists burst, cy. repeat split; assumption || apply Hr || apply Hcy.
Defined.

Lemma ratio_range (a t : R) :
  (0 <= a)%R -> (a < t)%R -> (0 <= a / t < 1)%R.
Proof.
  intros Ha Hat. split.
  - apply div_nonneg; lra.
  - apply Rmult_lt_reg_r with (r := t); [lra |].
    replace (a / t * t)%R with a by (field; lra). lra.
Qed.

(** The spiral rises from -5 to below 5 while it makes four turns: particle
    [i] is at the fraction [u = i / count] of the way, at the angle
    [8 PI u], at the distance [4 PI u] from the axis and at the height
    [10 u - 5]; the height grows with the index. *)
Theorem spiral_turns_and_height (i j count : nat) (src : RandomSource) :
  i < j -> j < count ->
  exists u v : R,
    u = (INR i / INR count)%R /\ v = (INR j / INR count)%R
    /\ (0 <= u < v)%R /\ (v < 1)%R
    /\ fst (templates.spiral (JS.of_nat i) (JS.of_nat count) src) =
         Vector3.mk
           (JS.Fin (4 * PI * u * cos (8 * PI * u)))
           (JS.Fin (10 * u - 5))
           (JS.Fin (4 * PI * u * sin (8 * PI * u)))
    /\ fst (templates.spiral (JS.of_nat j) (JS.of_nat count) src) =
         Vector3.mk
           (JS.Fin (4 * PI * v * cos (8 * PI * v)))
           (JS.Fin (10 * v - 5))
           (JS.Fin (4 * PI * v * sin (8 * PI * v)))
    /\ (-5 <= 10 * u - 5 < 10 * v - 5)%R /\ (10 * v - 5 < 5)%R.
Proof.
  intros Hij Hj.
  assert (Hi : i < count) by lia.
  destruct (INR_index i count Hi) as (Hi0 & Hi1 & Hc).
  destruct (INR_index j count Hj) as (Hj0 & Hj1 & _).
  assert (Hlt : (INR i < INR j)%R) by (apply lt_INR; exact Hij).
  destruct (ratio_range (INR i) (INR count)) as [Hu0 Hu1]; [lra | lra |].
  destruct (ratio_range (INR j) (INR count)) as [Hv0 Hv1]; [lra | lra |].
  assert (Huv : (INR i / INR count < INR j / INR count)%R).
  { unfold Rdiv. apply Rmult_lt_compat_r; [| exact Hlt].
    apply Rinv_0_lt_compat. lra. }
  eexists _, _. split; [reflexivity |]. split; [reflexivity |].
  split; [lra |]. split; [lra |].
  unfold templates.spiral, JS.of_nat, ret. cbn.
  rewrite !div_Fin by lra. cbn.
  split; [| split; [| lra]].
  - replace (INR i / INR count * PI * 8)%R
      with (8 * PI * (INR i / INR count))%R by ring.
    f_equal; apply f_equal; unfold Q2R; simpl; field; lra.
  - replace (INR j / INR count * PI * 8)%R
      with (8 * PI * (INR j / INR count))%R by ring.
    f_equal; apply f_equal; unfold Q2R; simpl; field; lra.
Qed.

Lemma spiral_turns_and_height_witness :
  exists u v : R,
    u = (INR 1 / INR 4)%R /\ v = (INR 3 / INR 4)%R
    /\ (0 <= u < v)%R /\ (v < 1)%R
    /\ (-5 <= 10 * u - 5 < 10 * v - 5)%R /\ (10 * v - 5 < 5)%R.
Proof.
  destruct (spiral_turns_and_height 1 3 4 (fun _ => 0%R))
    as (u & v & Hu & Hv & Huv & Hv1 & _ & _ & Hh & Hh1); [lia | lia |].
  exists u, v. repeat split; assumption || apply Huv || apply Hh.
Defined.

Lemma INR_100 : INR 100 = 100%R.
Proof. rewrite INR_IZR_INZ. reflexivity. Qed.

(** The floor of a quotient of two naturals is their integer quotient, and
    the real remainder is their integer remainder. *)
Lemma Zfloor_INR_div (a b : nat) :
  0 < b -> Zfloor (INR a / INR b) = Z.of_nat (a / b).
Proof.
  intros Hb. apply Zfloor_eq. rewrite <- INR_IZR_INZ.
  assert (Hb' : (0 < INR b)%R) by (apply lt_0_INR; exact Hb).
  pose proof (Nat.div_mod_eq a b) as Hd.
  pose proof (Nat.mod_upper_bound a b ltac:(lia)) as Hm.
  assert (Hle : (INR (b * (a / b)) <= INR a)%R) by (apply le_INR; lia).
  assert (Hlt : (INR a < INR (b * (a / b) + b))%R) by (apply lt_INR; lia).
  rewrite plus_INR, mult_INR in Hlt. rewrite mult_INR in Hle.
  split.
  - apply Rmult_le_reg_r with (r := INR b); [exact Hb' |].
    replace (INR a / INR b * INR b)%R with (INR a) by (field; lra). lra.
  - apply Rmult_lt_reg_r with (r := INR b); [exact Hb' |].
    replace (INR a / INR b * INR b)%R with (INR a) by (field; lra). lra.
Qed.

Lemma remainder_INR (a b : nat) :
  0 < b ->
  (INR a - INR b * IZR (JS.trunc (INR a / INR b)) = INR (a mod b))%R.
Proof.
  intros Hb.
  assert (Hb' : (0 < INR b)%R) by (apply lt_0_INR; exact Hb).
  rewrite trunc_nonneg by (apply div_nonneg; [apply pos_INR | exact Hb']).
  rewrite Zfloor_INR_div by exact Hb. rewrite <- INR_IZR_INZ.
  pose proof (Nat.div_mod_eq a b) as Hd.
  apply (f_equal INR) in Hd. rewrite plus_INR, mult_INR in Hd. lra.
Qed.

Lemma cube_of_unit_range (s : R) : (-1 <= s <= 1)%R -> (-1 <= s ^ 3 <= 1)%R.
Proof.
  intros [H0 H1]. assert (Hsq : (0 <= s * s <= 1)%R) by nra.
  simpl. rewrite Rmult_1_r. split; nra.
Qed.

(** The heart fits in a box: |x| <= 24, |y| <= 31.5 and z in [-1.5, 1.5);
    z depends only on the index modulo 100. *)
Theorem heart_bounding_box (i count : nat) (src : RandomSource) :
  i < count ->
  exists x y z : R,
    fst (templates.heart (JS.of_nat i) (JS.of_nat count) src) =
      Vector3.mk (JS.Fin x) (JS.Fin y) (JS.Fin z)
    /\ (-24 <= x <= 24)%R /\ (-31.5 <= y <= 31.5)%R
    /\ z = ((INR (i mod 100) / 100 - 0.5) * 3)%R
    /\ (-1.5 <= z < 1.5)%R.
Proof.
  intros Hi. destruct (INR_index i count Hi) as (H0 & H1 & H2).
  pose proof (remainder_INR i 100 ltac:(lia)) as Hrem.
  rewrite INR_100 in Hrem.
  assert (Hm : (0 <= INR (i mod 100) < 100)%R).
  { pose proof (Nat.mod_upper_bound i 100 ltac:(lia)) as Hm.
    split; [apply pos_INR |]. apply lt_INR in Hm.
    rewrite INR_100 in Hm. exact Hm. }
  unfold templates.heart, JS.of_nat, ret. cbn.
  rewrite rem_Fin by lra. rewrite !div_Fin by lra. cbn.
  rewrite Hrem.
  eexists _, _, _. split; [reflexivity |].
  match goal with
  | |- context [sin ?t] =>
      pose proof (cube_of_unit_range (sin t) (SIN_bound t)) as Hs;
      pose proof (COS_bound t) as Hc1;
      pose proof (COS_bound (2 * t)) as Hc2;
      pose proof (COS_bound (3 * t)) as Hc3;
      pose proof (COS_bound (4 * t)) as Hc4
  end.
  simpl pow in *.
  split; [lra |]. split; [lra |]. split; [reflexivity | lra].
Qed.

Lemma heart_bounding_box_witness :
  exists x y z : R,
    fst (templates.heart (JS.of_nat 250) (JS.of_nat 1000) (fun _ => 0%R)) =
      Vector3.mk (JS.Fin x) (JS.Fin y) (JS.Fin z)
    /\ (-24 <= x <= 24)%R /\ (-31.5 <= y <= 31.5)%R
    /\ z = ((INR (250 mod 100) / 100 - 0.5) * 3)%R
    /\ (-1.5 <= z < 1.5)%R.
Proof. apply (heart_bounding_box 250 1000 (fun _ => 0%R)). lia. Defined.

(** In exact real arithmetic the wave fits in the box
    [-5, 5) x [-2, 2] x [-5, 5); the rounding of binary64, which is not
    modelled, can move a coordinate at the edge of the box past -5 by a
    unit in the last place. *)
Theorem wave_bounding_box (i count : nat) (src : RandomSource) :
  i < count ->
  exists x y z : R,
    fst (templates.wave (JS.of_nat i) (JS.of_nat count) src) =
      Vector3.mk (JS.Fin x) (JS.Fin y) (JS.Fin z)
    /\ (-5 <= x < 5)%R /\ (-2 <= y <= 2)%R /\ (-5 <= z < 5)%R.
Proof.
  intros Hi. destruct (INR_index i count Hi) as (H0 & H1 & H2).
  set (g := R_sqrt.sqrt (INR count)).
  assert (Hg : (0 < g)%R) by (apply sqrt_lt_R0; lra).
  assert (Hgg : (g * g = INR count)%R) by (apply sqrt_sqrt; lra).
  pose proof (remainder_bounds (INR i) g H0 Hg) as Hx.
  destruct (quotient_bounds (INR i) g H0 Hg) as (Hz0 & Hz1 & _).
  assert (Hz : (0 <= IZR (Zfloor (INR i / g)) < g)%R).
  { split; [exact Hz0 |].
    apply Rmult_lt_reg_r with (r := g); [exact Hg |]. nra. }
  unfold templates.wave, JS.of_nat, ret. cbn.
  rewrite sqrt_Fin by lra. fold g.
  rewrite !rem_Fin by lra. rewrite !div_Fin by lra. cbn.
  eexists _, _, _. split; [reflexivity |].
  split; [apply centered_range; assumption |].
  split; [| apply centered_range; assumption].
  match goal with
  | |- (_ <= sin ?a * cos ?b * 2 <= _)%R =>
      pose proof (SIN_bound a); pose proof (COS_bound b)
  end.
  split; nra.
Qed.

Lemma wave_bounding_box_witness :
  exists x y z : R,
    fst (templates.wave (JS.of_nat 7) (JS.of_nat 10) (fun _ => 0%R)) =
      Vector3.mk (JS.Fin x) (JS.Fin y) (JS.Fin z)
    /\ (-5 <= x < 5)%R /\ (-2 <= y <= 2)%R /\ (-5 <= z < 5)%R.
Proof. apply (wave_bounding_box 7 10 (fun _ => 0%R)). lia. Defined.

(** In exact real arithmetic every particle of the flower is at a distance
    between 1 and 5 from the vertical axis; the rounding of binary64, which
    is not modelled, can move a particle at distance 1 or 5 past the bound
    by a unit in the last place. *)
Theorem flower_radius_range (i count : nat) (src : RandomSource) :
  i < count ->
  exists x y z : R,
    fst (templates.flower (JS.of_nat i) (JS.of_nat count) src) =
      Vector3.mk (JS.Fin x) (JS.Fin y) (JS.Fin z)
    /\ (1 * 1 <= x * x + z * z <= 5 * 5)%R.
Proof.
  intros Hi. rewrite flower_value by exact Hi.
  eexists _, _, _. split; [reflexivity |].
  rewrite ring_point_norm.
  match goal with
  | |- context [sin ?a] => pose proof (SIN_bound a)
  end.
  split; nra.
Qed.

Lemma flower_radius_range_witness :
  exists x y z : R,
    fst (templates.flower (JS.of_nat 2) (JS.of_nat 9) (fun _ => 0%R)) =
      Vector3.mk (JS.Fin x) (JS.Fin y) (JS.Fin z)
    /\ (1 * 1 <= x * x + z * z <= 5 * 5)%R.
Proof. apply (flower_radius_range 2 9 (fun _ => 0%R)). lia. Defined.

Lemma cube_root_unique (s m : R) :
  (0 < s)%R -> (0 < m)%R -> (s * s * s = m * m * m)%R -> s = m.
Proof.
  intros Hs Hm Heq.
  destruct (Rtotal_order s m) as [Hlt | [Heq' | Hgt]];
    [exfalso | exact Heq' | exfalso].
  - assert (s * s < m * m)%R by nra. nra.
  - assert (m * m < s * s)%R by nra. nra.
Qed.

Lemma Rcbrt_perfect_cube (n : nat) :
  1 <= n -> JS.Rcbrt (INR (n * n * n)) = INR n.
Proof.
  intros Hn.
  assert (Hn' : (1 <= INR n)%R) by (apply (le_INR 1 n); exact Hn).
  assert (Hc : (INR (n * n * n) = INR n * INR n * INR n)%R)
    by (rewrite !mult_INR; reflexivity).
  apply cube_root_unique.
  - apply Rcbrt_pos. rewrite Hc. nra.
  - lra.
  - rewrite Rcbrt_cube; [exact Hc |]. rewrite Hc. nra.
Qed.

Lemma nat_remainder_INR (a b : nat) :
  0 < b -> (INR a - INR b * INR (a / b) = INR (a mod b))%R.
Proof.
  intros Hb. pose proof (Nat.div_mod_eq a b) as Hd.
  apply (f_equal INR) in Hd. rewrite plus_INR, mult_INR in Hd. lra.
Qed.

(** When the count is a perfect cube [n * n * n], the cube template is the
    integer grid: particle [i] is in column [i mod n], row [(i / n) mod n]
    and layer [i / (n * n)], each centered by [n / 2] and scaled by
    [10 / n]. *)
Theorem cube_integer_grid_on_perfect_cube (n i : nat) (src : RandomSource) :
  1 <= n -> i < n * n * n ->
  fst (templates.cube (JS.of_nat i) (JS.of_nat (n * n * n)) src) =
    Vector3.mk
      (JS.Fin ((INR (i mod n) - INR n / 2) * (10 / INR n)))
      (JS.Fin ((INR ((i / n) mod n) - INR n / 2) * (10 / INR n)))
      (JS.Fin ((INR (i / (n * n)) - INR n / 2) * (10 / INR n)))
  /\ i mod n < n /\ (i / n) mod n < n /\ i / (n * n) < n.
Proof.
  intros Hn Hi. split.
  - rewrite cube_value by exact Hi. cbn zeta.
    rewrite (Rcbrt_perfect_cube n Hn).
    rewrite (Zfloor_INR_div i n) by lia. rewrite <- INR_IZR_INZ.
    rewrite (Zfloor_INR_div (i / n) n) by lia. rewrite <- INR_IZR_INZ.
    replace (INR n * INR n)%R with (INR (n * n))
      by (rewrite mult_INR; reflexivity).
    rewrite (Zfloor_INR_div i (n * n)) by nia. rewrite <- INR_IZR_INZ.
    rewrite !nat_remainder_INR by lia. reflexivity.
  - split; [apply Nat.mod_upper_bound; lia |].
    split; [apply Nat.mod_upper_bound; lia |].
    apply Nat.Div0.div_lt_upper_bound. nia.
Qed.

Lemma cube_integer_grid_on_perfect_cube_witness :
  fst (templates.cube (JS.of_nat 5) (JS.of_nat (2 * 2 * 2)) (fun _ => 0%R)) =
    Vector3.mk
      (JS.Fin ((INR (5 mod 2) - INR 2 / 2) * (10 / INR 2)))
      (JS.Fin ((INR ((5 / 2) mod 2) - INR 2 / 2) * (10 / INR 2)))
      (JS.Fin ((INR (5 / (2 * 2)) - INR 2 / 2) * (10 / INR 2)))
  /\ 5 mod 2 < 2 /\ (5 / 2) mod 2 < 2 /\ 5 / (2 * 2) < 2.
Proof.
  apply (cube_integer_grid_on_perfect_cube 2 5 (fun _ => 0%R)).
  - lia.
  - vm_compute. lia.
Defined.

(** * Further properties of createParticles *)

Lemma for_rand_invariant_source {S : Type}
    (P : nat -> S -> RandomSource -> Prop)
    (body : nat -> S -> Rand S) (n lo : nat) (s : S) (src : RandomSource) :
  P lo s src ->
  (forall i st src', lo <= i < lo + n -> P i st src' ->
     P (Datatypes.S i) (fst (body i st src')) (snd (body i st src'))) ->
  P (lo + n) (fst (for_rand n lo body s src))
    (snd (for_rand n lo body s src)).
Proof.
  revert lo s src. induction n as [| n IH]; intros lo s src H0 Hstep; simpl.
  - rewrite Nat.add_0_r. exact H0.
  - replace (lo + Datatypes.S n) with (Datatypes.S lo + n) by lia.
    unfold bind. pose proof (Hstep lo s src ltac:(lia) H0) as H1.
    destruct (body lo s src) as [s' src']. simpl in H1.
    apply IH; [exact H1 |].
    intros i st src'' Hi. apply Hstep. lia.
Qed.

(** A template call consumes at most two values of the source. *)
Lemma templateFunc_source (name : TemplateName) (i total : JS.number)
    (src : RandomSource) :
  exists d, d <= 2 /\
    forall k, snd (templateFunc name i total src) k = src (d + k).
Proof.
  destruct name; simpl templateFunc;
    try (exists 0; split; [lia | intros k; reflexivity]).
  - unfold templates.saturn.
    destruct (i <? total * 0.6%R)%js.
    + exists 2. split; [lia | intros k; reflexivity].
    + exists 0. split; [lia | intros k; reflexivity].
  - exists 1. split; [lia | intros k; reflexivity].
Qed.

Lemma templateFunc_unit_source (name : TemplateName) (i total : JS.number)
    (src : RandomSource) :
  unit_source src -> unit_source (snd (templateFunc name i total src)).
Proof.
  intros Hsrc k.
  destruct (templateFunc_source name i total src) as (d & _ & Hd).
  rewrite Hd. apply Hsrc.
Qed.

Section CreateParticlesBuffers.

Variable offsetHSL : Color.t -> JS.number -> JS.number -> JS.number -> Color.t.
Variables (name : TemplateName) (count : nat) (baseColor : Color.t).

Lemma createParticles_body_colors (i : nat) (p : Points)
    (src : RandomSource) :
  let c :=
    offsetHSL baseColor
      ((JS.of_nat i / JS.of_nat count) * 0.1%R)%js 0%R 0%R in
  colors (fst (createParticles_body offsetHSL name count baseColor i p src)) =
    <[i * 3 + 2 := Color.b c]>
      (<[i * 3 + 1 := Color.g c]> (<[i * 3 := Color.r c]> (colors p))).
Proof.
  unfold createParticles_body, bind.
  destruct (templateFunc name _ _ src) as [pos src']. reflexivity.
Qed.

Lemma createParticles_body_sizes (i : nat) (p : Points)
    (src : RandomSource) :
  let src' := snd (templateFunc name (JS.of_nat i) (JS.of_nat count) src) in
  sizes (fst (createParticles_body offsetHSL name count baseColor i p src)) =
    <[i := JS.Fin (src' 0 * 2 + 1)]> (sizes p)
  /\ forall k,
       snd (createParticles_body offsetHSL name count baseColor i p src) k =
         src' (1 + k).
Proof.
  unfold createParticles_body, bind.
  destruct (templateFunc name _ _ src) as [pos src'].
  split; [reflexivity | intros k; reflexivity].
Qed.

(** The colour array after the loop. *)
Lemma createParticles_colors (src : RandomSource) :
  let p := fst (createParticles offsetHSL name count baseColor src) in
  length (colors p) = count * 3
  /\ forall j, j < count ->
       let c :=
         offsetHSL baseColor
           (JS.Fin (INR j / INR count * 0.1)) 0%R 0%R in
       colors p !! (j * 3) = Some (Color.r c)
       /\ colors p !! (j * 3 + 1) = Some (Color.g c)
       /\ colors p !! (j * 3 + 2) = Some (Color.b c).
Proof.
  cbn zeta. unfold createParticles.
  apply (for_rand_invariant
           (fun i st =>
              length (colors st) = count * 3
              /\ forall j, j < i ->
                   let c :=
                     offsetHSL baseColor
                       (JS.Fin (INR j / INR count * 0.1)) 0%R 0%R in
                   colors st !! (j * 3) = Some (Color.r c)
                   /\ colors st !! (j * 3 + 1) = Some (Color.g c)
                   /\ colors st !! (j * 3 + 2) = Some (Color.b c))
           _ count 0).
  - split; [apply length_replicate | intros j Hj; lia].
  - intros i st s Hi (Hc & Hdone).
    rewrite createParticles_body_colors. cbn zeta. rewrite !length_insert.
    split; [exact Hc |].
    intros j Hj. destruct (decide (j = i)) as [-> | Hne].
    + destruct (INR_index i count ltac:(lia)) as (H0 & H1 & H2).
      unfold JS.of_nat. rewrite div_Fin by lra. cbn.
      rewrite (list_lookup_insert_ne _ (i * 3 + 2) (i * 3)) by lia.
      rewrite (list_lookup_insert_ne _ (i * 3 + 1) (i * 3)) by lia.
      rewrite (list_lookup_insert_ne _ (i * 3 + 2) (i * 3 + 1)) by lia.
      rewrite !list_lookup_insert_eq by (rewrite ?length_insert; lia).
      repeat split; reflexivity.
    + rewrite !list_lookup_insert_ne by lia. apply Hdone. lia.
Qed.

(** The size array after the loop, on a source of values of [0, 1). *)
Lemma createParticles_sizes (src : RandomSource) :
  unit_source src ->
  let p := fst (createParticles offsetHSL name count baseColor src) in
  length (sizes p) = count
  /\ forall j, j < count ->
       exists r : R, sizes p !! j = Some (JS.Fin r) /\ (1 <= r < 3)%R.
Proof.
  intros Hsrc. cbn zeta. unfold createParticles.
  pose proof
    (for_rand_invariant_source
       (fun i st s =>
          unit_source s
          /\ length (sizes st) = count
          /\ forall j, j < i ->
               exists r : R,
                 sizes st !! j = Some (JS.Fin r) /\ (1 <= r < 3)%R)
       (createParticles_body offsetHSL name count baseColor) count 0)
    as Hinv.
  simpl Nat.add in Hinv.
  match goal with
  | |- context [for_rand count 0 _ ?q src] =>
      specialize (Hinv q src)
  end.
  destruct Hinv as (_ & Hs & Hall).
  - split; [exact Hsrc |]. simpl.
    split; [apply length_replicate | intros j Hj; lia].
  - intros i st s Hi (Hu & Hs & Hdone).
    pose proof (templateFunc_unit_source name (JS.of_nat i) (JS.of_nat count)
                  s Hu) as Hu'.
    destruct (createParticles_body_sizes i st s) as [Hsz Hsrc'].
    rewrite Hsz, length_insert.
    split.
    { intros k. rewrite Hsrc'. apply Hu'. }
    split; [exact Hs |].
    intros j Hj. destruct (decide (j = i)) as [-> | Hne].
    + rewrite list_lookup_insert_eq by lia.
      eexists. split; [reflexivity |]. pose proof (Hu' 0). lra.
    + rewrite list_lookup_insert_ne by lia. apply Hdone. lia.
  - split; [exact Hs | exact Hall].
Qed.

(** With a template that draws nothing, particle [j] gets the size of the
    [j]-th value of the source, and [count] values are consumed. *)
Lemma createParticles_sizes_pure (src : RandomSource) :
  name <> saturn -> name <> fireworks ->
  (forall j, j < count ->
     sizes (fst (createParticles offsetHSL name count baseColor src)) !! j =
       Some (JS.Fin (src j * 2 + 1)))
  /\ forall k,
       snd (createParticles offsetHSL name count baseColor src) k =
         src (count + k).
Proof.
  intros Hs Hf. unfold createParticles.
  pose proof
    (for_rand_invariant_source
       (fun i st s =>
          (forall k, s k = src (i + k))
          /\ length (sizes st) = count
          /\ forall j, j < i ->
               sizes st !! j = Some (JS.Fin (src j * 2 + 1)))
       (createParticles_body offsetHSL name count baseColor) count 0)
    as Hinv.
  simpl Nat.add in Hinv.
  match goal with
  | |- context [for_rand count 0 _ ?q src] =>
      specialize (Hinv q src)
  end.
  destruct Hinv as (Hsrc & _ & Hall).
  - split; [intros k; reflexivity |]. simpl.
    split; [apply length_replicate | intros j Hj; lia].
  - intros i st s Hi (Hsrc & Hlen & Hdone).
    destruct (createParticles_body_sizes i st s) as [Hsz Hsrc'].
    destruct (templateFunc_pure name (JS.of_nat i) (JS.of_nat count) Hs Hf)
      as [v Hv].
    rewrite Hv in Hsz, Hsrc'. cbn [snd] in Hsz, Hsrc'.
    rewrite Hsz, length_insert.
    split.
    { intros k. rewrite Hsrc', Hsrc. f_equal. lia. }
    split; [exact Hlen |].
    intros j Hj. destruct (decide (j = i)) as [-> | Hne].
    + rewrite list_lookup_insert_eq by lia.
      rewrite Hsrc. rewrite Nat.add_0_r. reflexivity.
    + rewrite list_lookup_insert_ne by lia. apply Hdone. lia.
  - split; [exact Hall | exact Hsrc].
Qed.

End CreateParticlesBuffers.

(** The colour buffer that [createParticles] fills has three slots for each
    particle, and particle [j] gets the base colour with its hue moved by
    [j / count * 0.1], a number of [0, 0.1), saturation and lightness
    offsets 0. *)
Theorem createParticles_hue_gradient
    (offsetHSL : Color.t -> JS.number -> JS.number -> JS.number -> Color.t)
    (name : TemplateName) (count : nat) (baseColor : Color.t)
    (src : RandomSource) (j : nat) :
  j < count ->
  exists h : R,
    h = (INR j / INR count * 0.1)%R /\ (0 <= h < 0.1)%R
    /\ length (colors (fst (createParticles offsetHSL name count baseColor
                              src))) = count * 3
    /\ colors (fst (createParticles offsetHSL name count baseColor src))
         !! (j * 3) =
         Some (Color.r (offsetHSL baseColor (JS.Fin h) 0%R 0%R))
    /\ colors (fst (createParticles offsetHSL name count baseColor src))
         !! (j * 3 + 1) =
         Some (Color.g (offsetHSL baseColor (JS.Fin h) 0%R 0%R))
    /\ colors (fst (createParticles offsetHSL name count baseColor src))
         !! (j * 3 + 2) =
         Some (Color.b (offsetHSL baseColor (JS.Fin h) 0%R 0%R)).
Proof.
  intros Hj. destruct (INR_index j count Hj) as (H0 & H1 & H2).
  destruct (ratio_range (INR j) (INR count)) as [Hu0 Hu1]; [lra | lra |].
  destruct (createParticles_colors offsetHSL name count baseColor src)
    as [Hlen Hall].
  destruct (Hall j Hj) as (Hr & Hg & Hb).
  eexists. split; [reflexivity |]. split; [lra |].
  split; [exact Hlen |]. split; [exact Hr |]. split; [exact Hg | exact Hb].
Qed.

Lemma createParticles_hue_gradient_witness :
  exists h : R,
    h = (INR 1 / INR 2 * 0.1)%R /\ (0 <= h < 0.1)%R
    /\ colors (fst (createParticles (fun c h _ _ => Color.mk h h h) sphere 2
                      (Color.mk 0%R 1%R 1%R) (fun _ => 0%R)))
         !! (1 * 3) = Some (JS.Fin h).
Proof.
  destruct (createParticles_hue_gradient (fun c h _ _ => Color.mk h h h)
              sphere 2 (Color.mk 0%R 1%R 1%R) (fun _ => 0%R) 1)
    as (h & Hh & Hr & _ & Hc & _); [lia |].
  exists h. split; [exact Hh |]. split; [exact Hr | exact Hc].
Defined.

(** On a source of values of [0, 1) the size buffer that [createParticles]
    fills has one slot for each particle and every size is in [1, 3]. *)
Theorem createParticles_sizes_in_range
    (offsetHSL : Color.t -> JS.number -> JS.number -> JS.number -> Color.t)
    (name : TemplateName) (count : nat) (baseColor : Color.t)
    (src : RandomSource) :
  unit_source src ->
  length (sizes (fst (createParticles offsetHSL name count baseColor src)))
    = count
  /\ forall j, j < count ->
       exists r : R,
         sizes (fst (createParticles offsetHSL name count baseColor src))
           !! j = Some (JS.Fin r)
         /\ (1 <= r <= 3)%R.
Proof.
  intros Hsrc.
  destruct (createParticles_sizes offsetHSL name count baseColor src Hsrc)
    as [Hlen Hall].
  split; [exact Hlen |]. intros j Hj.
  destruct (Hall j Hj) as (r & Hr & Hrange).
  exists r. split; [exact Hr | lra].
Qed.

Lemma createParticles_sizes_in_range_witness :
  exists r : R,
    sizes (fst (createParticles (fun c _ _ _ => c) saturn 4
                  (Color.mk 0%R 1%R 1%R) (fun _ => 0.5%R)))
      !! 3 = Some (JS.Fin r)
    /\ (1 <= r <= 3)%R.
Proof.
  apply (createParticles_sizes_in_range (fun c _ _ _ => c) saturn 4
           (Color.mk 0%R 1%R 1%R) (fun _ => 0.5%R)).
  - intros k. lra.
  - lia.
Defined.

(** With a template other than saturn and fireworks, the loop of
    [createParticles] (lines 167-180) calls [Math.random()] once for each
    particle, in index order: counting the values that the calls of this
    file get (not those that THREE draws for itself), the size of particle
    [j] is twice the [j]-th value plus 1, and [createParticles] uses up
    [count] values. *)
Theorem createParticles_one_draw_per_particle
    (offsetHSL : Color.t -> JS.number -> JS.number -> JS.number -> Color.t)
    (name : TemplateName) (count : nat) (baseColor : Color.t)
    (src : RandomSource) :
  name <> saturn -> name <> fireworks ->
  (forall j, j < count ->
     sizes (fst (createParticles offsetHSL name count baseColor src)) !! j =
       Some (JS.Fin (src j * 2 + 1)))
  /\ forall k,
       snd (createParticles offsetHSL name count baseColor src) k =
         src (count + k).
Proof.
  exact (createParticles_sizes_pure offsetHSL name count baseColor src).
Qed.

Lemma createParticles_one_draw_per_particle_witness :
  sizes (fst (createParticles (fun c _ _ _ => c) heart 3
                (Color.mk 0%R 1%R 1%R) (fun k => / (INR k + 2))%R)) !! 2 =
    Some (JS.Fin (/ (INR 2 + 2) * 2 + 1)).
Proof.
  apply (createParticles_one_draw_per_particle (fun c _ _ _ => c) heart 3
           (Color.mk 0%R 1%R 1%R) (fun k => / (INR k + 2))%R);
    [discriminate | discriminate | lia].
Defined.

(** * Further properties of updateParticles *)

Section UpdateParticlesMore.

Variable setHSL : JS.number -> JS.number -> JS.number -> Color.t.
Variables (gs : GestureState) (particleCount : nat).

(** The loop keeps the transform and moves the y slot of every particle
    below the count by the drift of its iteration, in an array of any
    length. *)
Lemma loop_drift (now : nat -> R) (p : Points) :
  let p' :=
    for_each particleCount 0
      (updateParticles_body setHSL gs particleCount now) p in
  scale p' = scale p /\ rotation_y p' = rotation_y p
  /\ length (positions p') = length (positions p)
  /\ forall j, j < particleCount ->
       positions p' !! (j * 3 + 1) =
         (fun y => (y + frame_drift now j)%js)
           <$> positions p !! (j * 3 + 1).
Proof.
  cbn zeta.
  cut ((fun (i : nat) st =>
              scale st = scale p /\ rotation_y st = rotation_y p
              /\ length (positions st) = length (positions p)
              /\ (forall j, i <= j ->
                    positions st !! (j * 3 + 1) = positions p !! (j * 3 + 1))
              /\ forall j, j < i ->
                   positions st !! (j * 3 + 1) =
                     (fun y => (y + frame_drift now j)%js)
                       <$> positions p !! (j * 3 + 1))
         (0 + particleCount)
         (for_each particleCount 0
            (updateParticles_body setHSL gs particleCount now) p)).
  { intros (Hsc & Hro & Hlen & _ & Hd). simpl in Hd.
    split; [exact Hsc |]. split; [exact Hro |].
    split; [exact Hlen | exact Hd]. }
  apply (for_each_invariant
           (fun (i : nat) st =>
              scale st = scale p /\ rotation_y st = rotation_y p
              /\ length (positions st) = length (positions p)
              /\ (forall j, i <= j ->
                    positions st !! (j * 3 + 1) = positions p !! (j * 3 + 1))
              /\ forall j, j < i ->
                   positions st !! (j * 3 + 1) =
                     (fun y => (y + frame_drift now j)%js)
                       <$> positions p !! (j * 3 + 1))
           _ particleCount 0 p).
  - split; [reflexivity |]. split; [reflexivity |]. split; [reflexivity |].
    split; [reflexivity | intros j Hj; lia].
  - intros i st Hi (Hsc & Hro & Hlen & Hrest & Hdone).
    rewrite body_positions. cbn [scale rotation_y updateParticles_body].
    rewrite length_insert.
    split; [exact Hsc |]. split; [exact Hro |]. split; [exact Hlen |]. split.
    + intros j Hj. rewrite list_lookup_insert_ne by lia. apply Hrest. lia.
    + intros j Hj. destruct (decide (j = i)) as [-> | Hne].
      * destruct (le_lt_dec (length (positions st)) (i * 3 + 1)) as [Hge | Hlt].
        -- rewrite list_insert_ge by exact Hge.
           rewrite (Hrest i) by lia.
           rewrite (lookup_ge_None_2 (positions p)) by lia. reflexivity.
        -- rewrite list_lookup_insert_eq by exact Hlt.
           rewrite (Hrest i) by lia.
           destruct (lookup_lt_is_Some_2 (positions p) (i * 3 + 1))
             as [y Hy]; [lia |].
           rewrite Hy. reflexivity.
      * rewrite list_lookup_insert_ne by lia. apply Hdone. lia.
Qed.

Lemma drift_bound (now : nat -> R) (j : nat) :
  exists d : R, frame_drift now j = JS.Fin d /\ (Rabs d <= 0.002)%R.
Proof.
  unfold frame_drift. eexists. split; [reflexivity |].
  match goal with |- context [sin ?a] => pose proof (SIN_bound a) end.
  apply Rabs_le. lra.
Qed.

Lemma animate_frames_transform (clock : nat -> nat -> R) (n : nat)
    (p : Points) (r rot0 : R) :
  rotation gs = JS.Fin r ->
  rotation_y p = JS.Fin rot0 ->
  exists p' : Points,
    animate_frames setHSL gs particleCount clock n (Some p) = Some p'
    /\ scale p' = (if n is O then scale p else expansion gs)
    /\ rotation_y p' = JS.Fin (rot0 + INR n * (r * 0.01)).
Proof.
  intros Hr Hrot. induction n as [| n IH].
  - exists p. simpl. split; [reflexivity |]. split; [reflexivity |].
    rewrite Hrot. f_equal. lra.
  - destruct IH as (q & Hrun & _ & Hq_rot).
    cbn [animate_frames]. rewrite Hrun. unfold updateParticles.
    match goal with
    | |- context [for_each particleCount 0 ?b ?q0] =>
        pose proof (loop_drift (clock n) q0) as (Hsc & Hro & _ & _)
    end.
    cbn [scale rotation_y] in Hsc, Hro.
    eexists. split; [reflexivity |]. split; [exact Hsc |].
    rewrite Hro, Hq_rot, Hr. unfold JS.add, JS.mul, JS.lift2.
    apply f_equal. rewrite S_INR. lra.
Qed.

Lemma animate_frames_drift (clock : nat -> nat -> R) (n : nat) (p : Points)
    (y0 : R) (i : nat) :
  i < particleCount ->
  positions p !! (i * 3 + 1) = Some (JS.Fin y0) ->
  exists (p' : Points) (yn : R),
    animate_frames setHSL gs particleCount clock n (Some p) = Some p'
    /\ positions p' !! (i * 3 + 1) = Some (JS.Fin yn)
    /\ (Rabs (yn - y0) <= 0.002 * INR n)%R.
Proof.
  intros Hi Hy. induction n as [| n IH].
  - exists p, y0. simpl. split; [reflexivity |]. split; [exact Hy |].
    replace (y0 - y0)%R with 0%R by lra. rewrite Rabs_R0. lra.
  - destruct IH as (q & yq & Hrun & Hq_y & Hq_b).
    cbn [animate_frames]. rewrite Hrun. unfold updateParticles.
    match goal with
    | |- context [for_each particleCount 0 ?b ?q0] =>
        pose proof (loop_drift (clock n) q0) as (_ & _ & _ & Hd)
    end.
    cbn [positions] in Hd.
    destruct (drift_bound (clock n) i) as (d & Hd_eq & Hd_b).
    eexists _, (yq + d)%R. split; [reflexivity |]. split.
    + rewrite (Hd i Hi), Hq_y, Hd_eq. reflexivity.
    + rewrite S_INR.
      replace (yq + d - y0)%R with ((yq - y0) + d)%R by lra.
      eapply Rle_trans; [apply Rabs_triang |]. lra.
Qed.

End UpdateParticlesMore.

(** While the gesture state does not change, [n] frames turn the particles
    by [n] times [rotation * 0.01] and, from the first frame on, scale them
    by [expansion]. *)
Theorem animate_frames_spin
    (setHSL : JS.number -> JS.number -> JS.number -> Color.t)
    (gs : GestureState) (count : nat) (clock : nat -> nat -> R) (n : nat)
    (p : Points) (r rot0 : R) :
  rotation gs = JS.Fin r ->
  rotation_y p = JS.Fin rot0 ->
  exists p' : Points,
    animate_frames setHSL gs count clock n (Some p) = Some p'
    /\ scale p' = (if n is O then scale p else expansion gs)
    /\ rotation_y p' = JS.Fin (rot0 + INR n * (r * 0.01)).
Proof. apply animate_frames_transform. Qed.

Lemma animate_frames_spin_witness :
  exists p' : Points,
    animate_frames grey_of_hue turning_state 2
      (fun k i => 16 * INR k + INR i)%R 3 (Some two_particles) = Some p'
    /\ scale p' = JS.Fin 1.5
    /\ rotation_y p' = JS.Fin (0 + INR 3 * (2 * 0.01)).
Proof.
  apply (animate_frames_spin grey_of_hue turning_state 2
           (fun k i => 16 * INR k + INR i)%R 3 two_particles 2 0);
    reflexivity.
Defined.

(** In exact real arithmetic each frame moves the y slot of a particle by
    at most 0.002: after [n] frames a y slot that held the number [y0] holds
    a number within [0.002 * n] of it, whatever the clock readings.  The
    store into the [Float32Array] rounds each sum to binary32, which is not
    modelled: a stored step can exceed 0.002 by that rounding. *)
Theorem animate_frames_drift_bounded
    (setHSL : JS.number -> JS.number -> JS.number -> Color.t)
    (gs : GestureState) (count : nat) (clock : nat -> nat -> R) (n : nat)
    (p : Points) (y0 : R) (i : nat) :
  i < count ->
  positions p !! (i * 3 + 1) = Some (JS.Fin y0) ->
  exists (p' : Points) (yn : R),
    animate_frames setHSL gs count clock n (Some p) = Some p'
    /\ positions p' !! (i * 3 + 1) = Some (JS.Fin yn)
    /\ (Rabs (yn - y0) <= 0.002 * INR n)%R.
Proof. apply animate_frames_drift. Qed.

Lemma animate_frames_drift_bounded_witness :
  exists (p' : Points) (yn : R),
    animate_frames grey_of_hue turning_state 2
      (fun k i => 16 * INR k + INR i)%R 5 (Some two_particles) = Some p'
    /\ positions p' !! (1 * 3 + 1) = Some (JS.Fin yn)
    /\ (Rabs (yn - -2) <= 0.002 * INR 5)%R.
Proof.
  apply (animate_frames_drift_bounded grey_of_hue turning_state 2
           (fun k i => 16 * INR k + INR i)%R 5 two_particles (-2) 1);
    [lia | reflexivity].
Defined.

(** On arrays of three slots for each particle and a colour shift of
    [0, 1), the hue that a frame gives to [setHSL] for particle [i] is a
    number of [0, 1): the shift plus [i / count * 0.1], less 1 when that
    reaches 1. *)
Theorem updateParticles_hue_in_unit_range
    (setHSL : JS.number -> JS.number -> JS.number -> Color.t)
    (gs : GestureState) (count : nat) (now : nat -> R) (p : Points)
    (c : R) (i : nat) :
  colorShift gs = JS.Fin c -> (0 <= c < 1)%R ->
  length (positions p) = count * 3 ->
  length (colors p) = count * 3 ->
  i < count ->
  exists (p' : Points) (h : R),
    updateParticles setHSL gs count now (Some p) = Some p'
    /\ (0 <= h < 1)%R
    /\ (h = c + INR i / INR count * 0.1
        \/ h = c + INR i / INR count * 0.1 - 1)%R
    /\ colors p' !! (i * 3) = Some (Color.r (setHSL (JS.Fin h) 0.8%R 0.5%R))
    /\ colors p' !! (i * 3 + 1) =
         Some (Color.g (setHSL (JS.Fin h) 0.8%R 0.5%R))
    /\ colors p' !! (i * 3 + 2) =
         Some (Color.b (setHSL (JS.Fin h) 0.8%R 0.5%R)).
Proof.
  intros Hc Hrange Hlp Hlc Hi.
  destruct (INR_index i count Hi) as (H0 & H1 & H2).
  destruct (ratio_range (INR i) (INR count)) as [Hu0 Hu1]; [lra | lra |].
  set (u := (INR i / INR count)%R) in *.
  assert (Hx : (0 <= c + u * 0.1)%R) by lra.
  pose proof (remainder_bounds (c + u * 0.1) 1 Hx ltac:(lra)) as Hh.
  assert (Hhue :
            ((colorShift gs + (JS.of_nat i / JS.of_nat count) * 0.1%R)
             mod 1%R)%js =
            JS.Fin (c + u * 0.1 - 1 * IZR (JS.trunc ((c + u * 0.1) / 1)))).
  { rewrite Hc. unfold JS.of_nat. rewrite div_Fin by lra. fold u. cbn.
    rewrite rem_Fin by lra. reflexivity. }
  eexists. exists (c + u * 0.1 - 1 * IZR (JS.trunc ((c + u * 0.1) / 1)))%R.
  split; [reflexivity |]. split; [exact Hh |]. split.
  - rewrite trunc_nonneg by (apply div_nonneg; lra).
    replace ((c + u * 0.1) / 1)%R with (c + u * 0.1)%R by field.
    pose proof (Zfloor_bound (c + u * 0.1)) as [Hf0 Hf1].
    assert (Hz : (0 <= Zfloor (c + u * 0.1) < 2)%Z).
    { split.
      - apply (Zfloor_lub 0). simpl. lra.
      - apply lt_IZR. lra. }
    assert (Hcase : Zfloor (c + u * 0.1) = 0%Z \/ Zfloor (c + u * 0.1) = 1%Z)
      by lia.
    destruct Hcase as [-> | ->]; [left | right]; lra.
  - match goal with
    | |- context [for_each count 0 ?b ?q] =>
        pose proof (loop_writes setHSL gs count now q Hlp Hlc i Hi)
          as (Hr & Hg & Hb & _)
    end.
    unfold frame_color in Hr, Hg, Hb. rewrite Hhue in Hr, Hg, Hb.
    split; [exact Hr |]. split; [exact Hg | exact Hb].
Qed.

Lemma updateParticles_hue_in_unit_range_witness :
  exists (p' : Points) (h : R),
    updateParticles grey_of_hue turning_state 2 (fun _ => 1000%R)
      (Some two_particles) = Some p'
    /\ h = (0.97 + INR 1 / INR 2 * 0.1 - 1)%R
    /\ (0 <= h < 1)%R
    /\ colors p' !! (1 * 3) = Some (JS.Fin h)
    /\ colors p' !! (1 * 3 + 1) = Some (JS.Fin h)
    /\ colors p' !! (1 * 3 + 2) = Some (JS.Fin h).
Proof.
  destruct (updateParticles_hue_in_unit_range grey_of_hue turning_state 2
              (fun _ => 1000%R) two_particles 0.97 1)
    as (p' & h & Hrun & Hh & Hcase & Hr & Hg & Hb);
    [reflexivity | lra | reflexivity | reflexivity | lia |].
  exists p', h. split; [exact Hrun |].
  split.
  - destruct Hcase as [Hx | Hx]; [exfalso | exact Hx].
    simpl in Hx. lra.
  - split; [exact Hh |]. split; [exact Hr |]. split; [exact Hg | exact Hb].
Defined.

(** * Further properties of the gesture pipeline *)

(** The label depends on ten coordinates only: the x of landmarks 3 and 4
    and the y of the tip and the joint of the four fingers. *)
Theorem detectGesture_reads_ten_coordinates (l1 l2 : list Landmark.t) :
  21 <= length l1 -> 21 <= length l2 ->
  Landmark.x (landmark_at l1 3) = Landmark.x (landmark_at l2 3) ->
  Landmark.x (landmark_at l1 4) = Landmark.x (landmark_at l2 4) ->
  (forall i, i < 4 ->
     Landmark.y (landmark_at l1 (8 + 4 * i)) =
       Landmark.y (landmark_at l2 (8 + 4 * i))
     /\ Landmark.y (landmark_at l1 (6 + 4 * i)) =
          Landmark.y (landmark_at l2 (6 + 4 * i))) ->
  detectGesture l1 = detectGesture l2.
Proof.
  intros H1 H2 Hx3 Hx4 Hy.
  rewrite !detectGesture_classify by assumption.
  unfold thumb_extended, finger_extended. rewrite Hx3, Hx4.
  destruct (Hy 0) as [-> ->]; [lia |]. destruct (Hy 1) as [-> ->]; [lia |].
  destruct (Hy 2) as [-> ->]; [lia |]. destruct (Hy 3) as [-> ->]; [lia |].
  reflexivity.
Qed.

Lemma detectGesture_reads_ten_coordinates_witness :
  detectGesture (sample_of false true true false false) =
  detectGesture (sample_of false true true false false ++ [origin]).
Proof.
  apply detectGesture_reads_ten_coordinates;
    try (vm_compute; lia); try reflexivity.
  intros i Hi.
  destruct i as [| [| [| [| i]]]]; [split; reflexivity .. | lia].
Defined.

Lemma classify_spec_not_none (t i m r p : bool) :
  classify_spec t i m r p <> none.
Proof. destruct t, i, m, r, p; discriminate. Qed.

(** The classifier never answers none, so the callback never stores none:
    after a callback that returned for a frame with a hand, [detected] is
    one of the five labels of a hand. *)
Theorem detected_none_only_without_hand (results : Results) (g : Globals)
    (landmarks : list Landmark.t) (rest : list (list Landmark.t)) :
  multiHandLandmarks results = Some (landmarks :: rest) ->
  fst (onHandResults results g) = Returned ->
  detectGesture landmarks <> Ok none
  /\ detected (gestureState (snd (onHandResults results g))) <> none.
Proof.
  intros Hr Hret. destruct results as [m]. simpl in Hr. subst m.
  unfold onHandResults in *. simpl in *.
  destruct (le_lt_dec 21 (length landmarks)) as [Hlen | Hlen].
  - rewrite detectGesture_classify in * by exact Hlen. simpl.
    rewrite gestureSwitch_detected. simpl.
    split; [intros H; injection H; apply classify_spec_not_none |].
    apply classify_spec_not_none.
  - rewrite detectGesture_short in Hret by exact Hlen. discriminate.
Qed.

Lemma detected_none_only_without_hand_witness :
  detected (gestureState (snd (onHandResults (one_hand fist_sample)
                                  initialGlobals))) <> none.
Proof.
  apply (detected_none_only_without_hand (one_hand fist_sample)
           initialGlobals fist_sample []).
  - reflexivity.
  - unfold onHandResults, one_hand. cbn [multiHandLandmarks].
    rewrite detectGesture_fist_sample. reflexivity.
Defined.

Lemma run_replicate_S (ev : Event) (n : nat) (g : Globals) :
  run (replicate (Datatypes.S n) ev) g = step (run (replicate n ev) g) ev.
Proof.
  revert g. induction n as [| n IH]; intros g; [reflexivity |].
  change (run (replicate (Datatypes.S (Datatypes.S n)) ev) g)
    with (run (replicate (Datatypes.S n) ev) (step g ev)).
  rewrite IH. reflexivity.
Qed.

Lemma step_hand (landmarks : list Landmark.t)
    (rest : list (list Landmark.t)) (gesture : Gesture) (g : Globals) :
  detectGesture landmarks = Ok gesture ->
  step g (HandResults {| multiHandLandmarks := Some (landmarks :: rest) |}) =
    gestureSwitch gesture (set_detected gesture g).
Proof.
  intros H. unfold step. rewrite (onHandResults_hand _ _ _ _ H). reflexivity.
Qed.

Lemma Rmin_step (a : R) :
  Rmin (Rmin a 2.0 + 0.02) 2.0 = Rmin (a + 0.02) 2.0.
Proof.
  unfold Rmin. destruct (Rle_dec a 2.0); destruct (Rle_dec (a + 0.02) 2.0);
    destruct (Rle_dec (2.0 + 0.02) 2.0); lra.
Qed.

Lemma Rmax_step (a : R) :
  Rmax (Rmax a 0.3 - 0.02) 0.3 = Rmax (a - 0.02) 0.3.
Proof.
  unfold Rmax. destruct (Rle_dec a 0.3); destruct (Rle_dec (a - 0.02) 0.3);
    destruct (Rle_dec (0.3 - 0.02) 0.3); lra.
Qed.

(** [n] frames of an open hand raise the expansion by 0.02 each up to the
    ceiling 2.0, and [n] frames of a fist lower it by 0.02 each down to the
    floor 0.3. *)
Theorem expansion_after_n_frames (landmarks : list Landmark.t)
    (rest : list (list Landmark.t)) (n : nat) (g : Globals) (e : R) :
  expansion (gestureState g) = JS.Fin e -> (0.3 <= e <= 2.0)%R ->
  let frames :=
    replicate n
      (HandResults {| multiHandLandmarks := Some (landmarks :: rest) |}) in
  (detectGesture landmarks = Ok open_hand ->
     expansion (gestureState (run frames g)) =
       JS.Fin (Rmin (e + 0.02 * INR n) 2.0))
  /\ (detectGesture landmarks = Ok fist ->
        expansion (gestureState (run frames g)) =
          JS.Fin (Rmax (e - 0.02 * INR n) 0.3)).
Proof.
  intros He Hrange frames. subst frames. split; intros Hd.
  - induction n as [| n IH].
    + simpl. rewrite He. f_equal. rewrite Rmin_left; lra.
    + rewrite run_replicate_S, (step_hand _ _ _ _ Hd).
      cbn [gestureSwitch set_status set_expansion set_detected
             gestureState expansion].
      rewrite IH. unfold JS.add, JS.min, JS.lift2. f_equal.
      rewrite S_INR, Rmin_step. f_equal. lra.
  - induction n as [| n IH].
    + simpl. rewrite He. f_equal. rewrite Rmax_left; lra.
    + rewrite run_replicate_S, (step_hand _ _ _ _ Hd).
      cbn [gestureSwitch set_status set_expansion set_detected
             gestureState expansion].
      rewrite IH. unfold JS.sub, JS.max, JS.lift2. f_equal.
      rewrite S_INR, Rmax_step. f_equal. lra.
Qed.

Lemma expansion_after_n_frames_witness :
  expansion (gestureState
               (run (replicate 60 (HandResults (one_hand fist_sample)))
                  initialGlobals)) =
    JS.Fin (Rmax (1 - 0.02 * INR 60) 0.3).
Proof.
  apply (expansion_after_n_frames fist_sample [] 60 initialGlobals 1).
  - reflexivity.
  - lra.
  - exact detectGesture_fist_sample.
Defined.

(** From a rotation that is a natural number, callbacks and resets lead to
    a natural number, larger by at most the number of events. *)
Lemma rotation_counts (evs : list Event) (g : Globals) (k : nat) :
  rotation (gestureState g) = JS.Fin (INR k) ->
  exists k' : nat,
    rotation (gestureState (run evs g)) = JS.Fin (INR k')
    /\ k' <= k + length evs.
Proof.
  revert g k. induction evs as [| ev evs IH]; intros g k Hg.
  - exists k. split; [exact Hg | simpl; lia].
  - assert (Hstep : exists k1,
               rotation (gestureState (step g ev)) = JS.Fin (INR k1)
               /\ k1 <= k + 1).
    { destruct ev as [[m] |]; simpl.
      - unfold onHandResults. simpl.
        destruct m as [[| landmarks rest] |]; simpl;
          try (exists k; split; [exact Hg | lia]).
        destruct (detectGesture landmarks) as [gesture | e]; simpl;
          [| exists k; split; [exact Hg | lia]].
        destruct gesture; simpl;
          try (exists k; split; [exact Hg | lia]).
        exists (Datatypes.S k). rewrite Hg. split; [| lia].
        unfold JS.add, JS.lift2. f_equal. rewrite S_INR. reflexivity.
      - exists 0. split; [reflexivity | lia]. }
    destruct Hstep as (k1 & Hk1 & Hle).
    destruct (IH (step g ev) k1 Hk1) as (k' & Hk' & Hle').
    exists k'. split; [exact Hk' |]. simpl. lia.
Qed.

(** The rotation is a count: after any callbacks and resets from the
    initial state it is a natural number, at most the number of events. *)
Theorem rotation_is_a_frame_count (evs : list Event) :
  exists k : nat,
    rotation (gestureState (run evs initialGlobals)) = JS.Fin (INR k)
    /\ k <= length evs.
Proof. apply (rotation_counts evs initialGlobals 0). reflexivity. Qed.

(** A callback changes a number of the gesture state only for the gesture
    of its frame: the expansion on open_hand or fist, the rotation on point,
    the colour shift on peace; a frame with an unknown pose changes none of
    the three, a frame whose classifier throws changes no global, and a
    frame without a hand leaves the gesture state as it was. *)
Theorem onHandResults_changes_one_field (results : Results) (g : Globals) :
  let gs := gestureState g in
  let gs' := gestureState (snd (onHandResults results g)) in
  (forall landmarks rest gesture,
      multiHandLandmarks results = Some (landmarks :: rest) ->
      detectGesture landmarks = Ok gesture ->
      (gesture <> open_hand -> gesture <> fist ->
         expansion gs' = expansion gs)
      /\ (gesture <> point -> rotation gs' = rotation gs)
      /\ (gesture <> peace -> colorShift gs' = colorShift gs)
      /\ (gesture = unknown ->
            expansion gs' = expansion gs /\ rotation gs' = rotation gs
            /\ colorShift gs' = colorShift gs))
  /\ (forall landmarks rest e,
        multiHandLandmarks results = Some (landmarks :: rest) ->
        detectGesture landmarks = Throw e ->
        snd (onHandResults results g) = g)
  /\ (multiHandLandmarks results = None \/
      multiHandLandmarks results = Some [] ->
      gs' = gs).
Proof.
  cbn zeta. destruct results as [m]. cbn [multiHandLandmarks].
  split; [| split].
  - intros landmarks rest gesture -> Hd.
    rewrite (onHandResults_hand _ _ _ _ Hd). cbn [snd].
    destruct gesture; cbn;
      (split; [| split; [| split]]);
      first [ reflexivity
            | intros H; first [contradiction H; reflexivity | discriminate H]
            | intros H1 H2;
              first [contradiction H1; reflexivity
                    | contradiction H2; reflexivity]
            | intros _; repeat split; reflexivity
            | intros _ _; reflexivity
            | intros _; reflexivity ].
  - intros landmarks rest e -> Hd. unfold onHandResults. simpl.
    rewrite Hd. reflexivity.
  - intros [-> | ->]; reflexivity.
Qed.

Lemma onHandResults_changes_one_field_witness :
  let g :=
    run [HandResults (one_hand (sample_of false true false false false))]
      initialGlobals in
  let g' :=
    snd (onHandResults (one_hand (sample_of false true true false false))
           g) in
  expansion (gestureState g') = expansion (gestureState g)
  /\ rotation (gestureState g') = rotation (gestureState g)
  /\ gestureState (snd (onHandResults no_hands g')) = gestureState g'.
Proof.
  cbn zeta.
  set (g := run [HandResults
                   (one_hand (sample_of false true false false false))]
              initialGlobals).
  set (r := one_hand (sample_of false true true false false)).
  destruct (onHandResults_changes_one_field r g) as (Hhand & _ & _).
  destruct (Hhand (sample_of false true true false false) [] peace
              eq_refl (detectGesture_sample_of false true true false false))
    as (He & Hr & _ & _).
  split; [apply He; discriminate |]. split; [apply Hr; discriminate |].
  apply (proj2 (proj2 (onHandResults_changes_one_field no_hands
                         (snd (onHandResults r g))))).
  left. reflexivity.
Defined.

(** * The page as a whole *)

Section PageProperties.

Variable offsetHSL : Color.t -> JS.number -> JS.number -> JS.number -> Color.t.
Variable setHSL : JS.number -> JS.number -> JS.number -> Color.t.

(** The transform and the sizes of the buffers of a new particles object. *)
Lemma createParticles_fresh (name : TemplateName) (count : nat)
    (base : Color.t) (src : RandomSource) :
  let p := fst (createParticles offsetHSL name count base src) in
  length (positions p) = count * 3
  /\ length (colors p) = count * 3
  /\ length (sizes p) = count
  /\ scale p = JS.Fin 1 /\ rotation_y p = JS.Fin 0.
Proof.
  cbn zeta. unfold createParticles.
  apply (for_rand_invariant
           (fun (_ : nat) st =>
              length (positions st) = count * 3
              /\ length (colors st) = count * 3
              /\ length (sizes st) = count
              /\ scale st = JS.Fin 1 /\ rotation_y st = JS.Fin 0)
           _ count 0).
  - simpl. unfold new_Float32Array. rewrite !length_replicate.
    repeat split; reflexivity.
  - intros i st s _ (Hp & Hc & Hs & Hsc & Hro).
    rewrite createParticles_body_positions, createParticles_body_colors.
    destruct (createParticles_body_sizes offsetHSL name count base i st s)
      as [Hsz _].
    rewrite Hsz. cbn zeta. rewrite !length_insert.
    unfold createParticles_body, bind.
    destruct (templateFunc name _ _ s) as [pos s']. simpl.
    repeat split; assumption.
Qed.

Lemma createParticles_global_inv (app : App) :
  gesture_state_in_range (gestureState (globals app)) ->
  let app' := createParticles_global offsetHSL app in
  buffers_match_count app' /\ scale_in_range app'
  /\ globals app' = globals app.
Proof.
  intros Hg. cbn zeta. unfold createParticles_global.
  pose proof (createParticles_fresh (currentTemplate app) (particleCount app)
                (baseColor app) (randomSource app))
    as (Hp & Hc & Hs & Hsc & _).
  destruct (createParticles offsetHSL _ _ _ _) as [p src']. simpl in *.
  split; [| split; [| reflexivity]].
  - exists p. repeat split; assumption.
  - exists p, 1%R. repeat split; try assumption; lra.
Qed.

Lemma animate_inv (now : nat -> R) (app : App) :
  gesture_state_in_range (gestureState (globals app)) ->
  buffers_match_count app ->
  let app' := animate setHSL now app in
  buffers_match_count app' /\ scale_in_range app'
  /\ globals app' = globals app.
Proof.
  intros (e & c & He & Hre & _) (p & Hpart & Hp & Hc & Hs). cbn zeta.
  unfold animate, buffers_match_count, scale_in_range. simpl.
  rewrite Hpart. unfold updateParticles.
  match goal with
  | |- context [for_each ?n 0 ?b ?q] =>
      pose proof (loop_frame setHSL (gestureState (globals app)) n now n q)
        as (Hs' & Hp' & Hc' & _);
      pose proof (loop_drift setHSL (gestureState (globals app)) n now q)
        as (Hsc & _)
  end.
  cbn [positions colors sizes scale] in Hs', Hp', Hc', Hsc.
  split; [| split; [| reflexivity]].
  - eexists. split; [reflexivity |].
    rewrite Hp', Hc', Hs'. repeat split; assumption.
  - eexists. exists e. split; [reflexivity |].
    rewrite Hsc, He. split; [reflexivity | exact Hre].
Qed.

Lemma page_step_ok (app : App) (ev : PageEvent) :
  page_ok app -> page_ok (page_step offsetHSL setHSL app ev).
Proof.
  intros (Hg & Hb & Hsc).
  assert (Hglob : forall g',
             gesture_state_in_range (gestureState g') ->
             page_ok (with_globals g' app)).
  { intros g' Hg'. split; [exact Hg' |]. split; assumption. }
  destruct ev as [results | | value | value | value | now | |]; simpl.
  - apply Hglob. apply (step_in_range (globals app) (HandResults results) Hg).
  - apply Hglob. apply (step_in_range (globals app) ResetClick Hg).
  - unfold templateSelectChange.
    match goal with
    | |- page_ok (createParticles_global _ ?a) =>
        destruct (createParticles_global_inv a Hg) as (H1 & H2 & H3)
    end.
    split; [rewrite H3; exact Hg | split; assumption].
  - unfold particleCountInput.
    match goal with
    | |- page_ok (createParticles_global _ ?a) =>
        destruct (createParticles_global_inv a Hg) as (H1 & H2 & H3)
    end.
    split; [rewrite H3; exact Hg | split; assumption].
  - unfold colorPickerInput.
    match goal with
    | |- page_ok (createParticles_global _ ?a) =>
        destruct (createParticles_global_inv a Hg) as (H1 & H2 & H3)
    end.
    split; [rewrite H3; exact Hg | split; assumption].
  - destruct (animate_inv now app Hg Hb) as (H1 & H2 & H3).
    split; [rewrite H3; exact Hg | split; assumption].
  - apply Hglob. exact Hg.
  - apply Hglob. exact Hg.
Qed.

Lemma started_ok (now : nat -> R) (src : RandomSource) :
  page_ok (started offsetHSL setHSL now src).
Proof.
  unfold started.
  assert (Hg : gesture_state_in_range (gestureState (globals (declared src))))
    by apply initial_in_range.
  destruct (createParticles_global_inv (declared src) Hg) as (H1 & H2 & H3).
  assert (Hg' : gesture_state_in_range
                  (gestureState
                     (globals (createParticles_global offsetHSL
                                 (declared src)))))
    by (rewrite H3; exact Hg).
  destruct (animate_inv now _ Hg' H1) as (K1 & K2 & K3).
  split; [rewrite K3; exact Hg' | split; assumption].
Qed.

Lemma page_run_ok (evs : list PageEvent) (app : App) :
  page_ok app -> page_ok (page_run offsetHSL setHSL evs app).
Proof.
  revert app. induction evs as [| ev evs IH]; intros app Hok; simpl.
  - exact Hok.
  - apply IH, page_step_ok, Hok.
Qed.

End PageProperties.

(** After the start of the page and any sequence of hand results, reset
    clicks, template, count and colour changes, animation frames and
    hand-tracking outcomes, the particles object exists and its position,
    colour and size buffers have three, three and one slot for each of the
    current count of particles. *)
Theorem page_buffers_match_count
    (offsetHSL : Color.t -> JS.number -> JS.number -> JS.number -> Color.t)
    (setHSL : JS.number -> JS.number -> JS.number -> Color.t)
    (evs : list PageEvent) (now : nat -> R) (src : RandomSource) :
  let app :=
    page_run offsetHSL setHSL evs (started offsetHSL setHSL now src) in
  exists p : Points,
    particles app = Some p
    /\ length (positions p) = particleCount app * 3
    /\ length (colors p) = particleCount app * 3
    /\ length (sizes p) = particleCount app.
Proof.
  apply (page_run_ok offsetHSL setHSL evs).
  apply started_ok.
Qed.

Lemma createParticles_global_scale
    (offsetHSL : Color.t -> JS.number -> JS.number -> JS.number -> Color.t)
    (app : App) :
  exists p : Points,
    particles (createParticles_global offsetHSL app) = Some p
    /\ scale p = JS.Fin 1.
Proof.
  unfold createParticles_global.
  pose proof (createParticles_fresh offsetHSL (currentTemplate app)
                (particleCount app) (baseColor app) (randomSource app))
    as (_ & _ & _ & Hsc & _).
  destruct (createParticles offsetHSL _ _ _ _) as [p src'].
  exists p. split; [reflexivity | exact Hsc].
Qed.

Lemma animate_scale
    (setHSL : JS.number -> JS.number -> JS.number -> Color.t)
    (now : nat -> R) (app : App) (p : Points) :
  particles app = Some p ->
  exists p' : Points,
    particles (animate setHSL now app) = Some p'
    /\ scale p' = expansion (gestureState (globals app)).
Proof.
  intros Hp. unfold animate. cbn [particles]. rewrite Hp.
  unfold updateParticles.
  match goal with
  | |- context [for_each ?n 0 ?b ?q] =>
      pose proof (loop_drift setHSL (gestureState (globals app)) n now q)
        as (Hsc & _)
  end.
  cbn [scale] in Hsc.
  eexists. split; [reflexivity | exact Hsc].
Qed.

(** After the start of the page and any sequence of events, the scale of
    the particles object is a number of [0.3, 2.0]; a template, count or
    colour change that comes next leaves it at 1, the scale of a new
    particles object, and an animation frame that comes next sets it to the
    expansion of the gesture state. *)
Theorem page_scale_in_range
    (offsetHSL : Color.t -> JS.number -> JS.number -> JS.number -> Color.t)
    (setHSL : JS.number -> JS.number -> JS.number -> Color.t)
    (evs : list PageEvent) (now : nat -> R) (src : RandomSource) :
  let app :=
    page_run offsetHSL setHSL evs (started offsetHSL setHSL now src) in
  (exists (p : Points) (s : R),
      particles app = Some p /\ scale p = JS.Fin s /\ (0.3 <= s <= 2.0)%R)
  /\ (forall ev,
        (exists value, ev = TemplateSelectChange value)
        \/ (exists value, ev = ParticleCountInput value)
        \/ (exists value, ev = ColorPickerInput value) ->
        exists p : Points,
          particles (page_step offsetHSL setHSL app ev) = Some p
          /\ scale p = JS.Fin 1)
  /\ (forall now',
        exists p : Points,
          particles (page_step offsetHSL setHSL app (AnimationFrame now')) =
            Some p
          /\ scale p = expansion (gestureState (globals app))).
Proof.
  cbn zeta.
  pose proof (page_run_ok offsetHSL setHSL evs _
                (started_ok offsetHSL setHSL now src))
    as (_ & (p & Hp & _) & Hsc).
  split; [exact Hsc |]. split.
  - intros ev [[value ->] | [[value ->] | [value ->]]];
      apply createParticles_global_scale.
  - intros now'. apply (animate_scale setHSL now' _ p Hp).
Qed.

Lemma page_scale_in_range_witness :
  exists p : Points,
    particles
      (page_step (fun c _ _ _ => c) grey_of_hue
         (page_run (fun c _ _ _ => c) grey_of_hue
            [HandsResults (one_hand (sample_of true true true true true));
             AnimationFrame (fun _ => 16%R)]
            (started (fun c _ _ _ => c) grey_of_hue (fun _ => 0%R)
               (fun _ => 0.5%R)))
         (ParticleCountInput 8)) = Some p
    /\ scale p = JS.Fin 1.
Proof.
  pose proof (page_scale_in_range (fun c _ _ _ => c) grey_of_hue
                [HandsResults
                   (one_hand (sample_of true true true true true));
                 AnimationFrame (fun _ => 16%R)]
                (fun _ => 0%R) (fun _ => 0.5%R)) as H.
  cbv zeta in H. destruct H as (_ & Hregen & _).
  apply (Hregen (ParticleCountInput 8)).
  right. left. exists 8. exact eq_refl.
Defined.

(** * Two more compositions *)

Lemma frac_step (x d : R) : frac (frac x + d) = frac (x + d).
Proof.
  unfold frac.
  replace (x - IZR (Zfloor x) + d)%R with (x + d + IZR (- Zfloor x))%R
    by (rewrite opp_IZR; lra).
  rewrite Zfloor_addz, plus_IZR, opp_IZR. lra.
Qed.

Lemma rem_1_frac (x : R) :
  (0 <= x)%R -> JS.rem (JS.Fin x) (JS.Fin 1) = JS.Fin (frac x).
Proof.
  intros Hx. rewrite rem_Fin by lra.
  replace (x / 1)%R with x by field.
  rewrite trunc_nonneg by exact Hx. unfold frac. f_equal. lra.
Qed.

(** [n] frames of a peace sign move the colour shift by 0.01 each around
    the unit circle: from a shift [c] of [0, 1) it becomes the fractional
    part of [c + 0.01 * n]. *)
Theorem colorShift_after_n_peace_frames (landmarks : list Landmark.t)
    (rest : list (list Landmark.t)) (n : nat) (g : Globals) (c : R) :
  detectGesture landmarks = Ok peace ->
  colorShift (gestureState g) = JS.Fin c -> (0 <= c < 1)%R ->
  colorShift
    (gestureState
       (run (replicate n
               (HandResults
                  {| multiHandLandmarks := Some (landmarks :: rest) |})) g)) =
    JS.Fin (frac (c + 0.01 * INR n))
  /\ (0 <= frac (c + 0.01 * INR n) < 1)%R.
Proof.
  intros Hd Hc Hrange.
  assert (Hfrac : forall x, (0 <= frac x < 1)%R).
  { intros x. unfold frac. pose proof (Zfloor_bound x). lra. }
  split; [| apply Hfrac].
  induction n as [| n IH].
  - simpl. rewrite Hc. f_equal. unfold frac.
    replace (c + 0.01 * 0)%R with c by lra.
    rewrite (Zfloor_eq 0 c) by (simpl; lra). simpl. lra.
  - rewrite run_replicate_S, (step_hand _ _ _ _ Hd).
    cbn [gestureSwitch set_status set_colorShift set_detected
           gestureState colorShift].
    rewrite IH. unfold JS.add, JS.lift2.
    rewrite rem_1_frac by (pose proof (Hfrac (c + 0.01 * INR n)%R); lra).
    rewrite frac_step. f_equal. f_equal. rewrite S_INR. lra.
Qed.

Lemma colorShift_after_n_peace_frames_witness :
  colorShift
    (gestureState
       (run (replicate 150
               (HandResults
                  (one_hand (sample_of false true true false false))))
          initialGlobals)) =
    JS.Fin (frac (0 + 0.01 * INR 150))
  /\ (0 <= frac (0 + 0.01 * INR 150) < 1)%R.
Proof.
  apply (colorShift_after_n_peace_frames
           (sample_of false true true false false) [] 150 initialGlobals 0).
  - exact (detectGesture_sample_of false true true false false).
  - reflexivity.
  - lra.
Defined.

(** With a template other than saturn and fireworks, the three position
    slots of particle [j] hold the vector that the template gives for
    [(j, count)]. *)
Theorem createParticles_stores_template_output
    (offsetHSL : Color.t -> JS.number -> JS.number -> JS.number -> Color.t)
    (name : TemplateName) (count : nat) (baseColor : Color.t)
    (src src0 : RandomSource) (j : nat) :
  name <> saturn -> name <> fireworks -> j < count ->
  let p := fst (createParticles offsetHSL name count baseColor src) in
  let v := fst (templateFunc name (JS.of_nat j) (JS.of_nat count) src0) in
  positions p !! (j * 3) = Some (Vector3.x v)
  /\ positions p !! (j * 3 + 1) = Some (Vector3.y v)
  /\ positions p !! (j * 3 + 2) = Some (Vector3.z v).
Proof.
  intros Hs Hf Hj. cbn zeta. unfold createParticles.
  pose proof
    (for_rand_invariant
       (fun i st =>
          length (positions st) = count * 3
          /\ forall j, j < i ->
               let v :=
                 fst (templateFunc name (JS.of_nat j) (JS.of_nat count)
                        src0) in
               positions st !! (j * 3) = Some (Vector3.x v)
               /\ positions st !! (j * 3 + 1) = Some (Vector3.y v)
               /\ positions st !! (j * 3 + 2) = Some (Vector3.z v))
       (createParticles_body offsetHSL name count baseColor) count 0)
    as Hinv.
  simpl Nat.add in Hinv.
  match goal with
  | |- context [for_rand count 0 _ ?q src] => specialize (Hinv q src)
  end.
  destruct Hinv as (_ & Hall).
  - split; [apply length_replicate | intros k Hk; lia].
  - intros i st s Hi (Hlen & Hdone).
    rewrite createParticles_body_positions. cbn zeta.
    rewrite !length_insert. split; [exact Hlen |].
    intros k Hk. cbn zeta.
    destruct (templateFunc_pure name (JS.of_nat i) (JS.of_nat count) Hs Hf)
      as [v Hv].
    destruct (decide (k = i)) as [-> | Hne].
    + rewrite !Hv. cbn [fst].
      rewrite (list_lookup_insert_ne _ (i * 3 + 2) (i * 3)) by lia.
      rewrite (list_lookup_insert_ne _ (i * 3 + 1) (i * 3)) by lia.
      rewrite (list_lookup_insert_ne _ (i * 3 + 2) (i * 3 + 1)) by lia.
      rewrite !list_lookup_insert_eq by (rewrite ?length_insert; lia).
      repeat split; reflexivity.
    + rewrite !list_lookup_insert_ne by lia. apply Hdone. lia.
  - exact (Hall j Hj).
Qed.

Lemma createParticles_stores_template_output_witness :
  positions (fst (createParticles (fun c _ _ _ => c) spiral 4
                    (Color.mk 0%R 1%R 1%R) (fun _ => 0.5%R))) !! (2 * 3 + 1)
  = Some (Vector3.y (fst (templates.spiral (JS.of_nat 2) (JS.of_nat 4)
                            (fun _ => 0%R)))).
Proof.
  apply (createParticles_stores_template_output (fun c _ _ _ => c) spiral 4
           (Color.mk 0%R 1%R 1%R) (fun _ => 0.5%R) (fun _ => 0%R) 2);
    [discriminate | discriminate | lia].
Defined.
